(** * Hdf5Iterator: random slices of HDF5 datasets

    A shallow embedding of [src/data_prep/hdf5_iterator.py] and the
    properties of its sampling loop.

    The iterator object is a record; its methods run in a small
    state-and-exception monad over that record, so that an exception leaves
    the mutations made before it in place, as in Python.  The random number
    generator ([numpy.random.RandomState]) and the element type of the
    datasets are parameters of the development: the generator is any state
    type with a bounded draw that stays in range. *)

From Stdlib Require Import ZArith Lia.
From stdpp Require Import base option list strings.

Local Open Scope Z_scope.

(** ** Exceptions and results *)

Inductive exn : Type :=
  | ValueError (msg : string)
  | IndexError (msg : string)
  | KeyError (msg : string)
  | TypeError (msg : string)
  | OSError (msg : string).

Inductive result (X : Type) : Type :=
  | Ok (x : X)
  | Raise (e : exn).
Arguments Ok {X} x.
Arguments Raise {X} e.

Definition result_bind {X Y} (r : result X) (k : X → result Y) : result Y :=
  match r with
  | Ok x => k x
  | Raise e => Raise e
  end.

Notation "'try' x <- r ; k" := (result_bind r (fun x => k))
  (at level 10, x name, r at level 100, k at level 200).

(** The message of the [ValueError] that ends [__next__] when no attempt
    produced a slice (line 74). *)
Definition no_slice_msg : string := "Failed to find a slice. Slice size too big?".

(** ** The random source

    [RandomState seed] builds the generator; [bounded_draw g high] is one
    draw from [0, high) for a positive [high], with the next generator
    state. *)
Class RandomSource (G : Type) : Type := {
  RandomState : Z → G;
  bounded_draw : G → Z → Z * G;
  bounded_draw_range : ∀ g high, 0 < high → 0 ≤ (bounded_draw g high).1 < high
}.

(** ** Slices and the read of a dataset *)

Record slice : Type := Slice { slice_start : Z; slice_stop : Z }.

(** Python's [slice.indices] for a step of one: a negative bound counts from
    the end, and both bounds are clipped to [0, len]. *)
Definition adjust_index (i len : Z) : Z :=
  if i <? 0 then Z.max 0 (i + len) else Z.min i len.

(** The start and the count of the selection a slice makes on a dimension
    of extent [len]; a stop at or before the start selects nothing. *)
Definition translate_slice (s : slice) (len : N) : Z * N :=
  let start := adjust_index (slice_start s) (Z.of_N len) in
  let stop := adjust_index (slice_stop s) (Z.of_N len) in
  (start, Z.to_N (stop - start)).

Section Sampler.

Context {A : Type} {G : Type} `{RandomSource G}.

(** A stored dataset: its shape and its elements by index. *)
Record Dataset : Type := { ds_shape : list N; ds_value : list Z → A }.

(** The array a read returns. *)
Record ndarray : Type := { nd_shape : list N; nd_value : list Z → A }.

(** [next_item[tuple(slices)]]: the dataset indexed by a tuple of slices.
    The read belongs to h5py, not to this module; it is modelled as h5py
    does it: each slice is translated with [slice.indices] against the
    extent of its dimension, dimensions past the last slice are selected
    whole, and more slices than dimensions is an error. *)
Definition dataset_getitem (ds : Dataset) (slices : list slice) : result ndarray :=
  if (length (ds_shape ds) <? length slices)%nat
  then Raise (TypeError "Argument sequence too long")
  else
    let sel := zip_with translate_slice slices (ds_shape ds) in
    let rest := drop (length slices) (ds_shape ds) in
    Ok {| nd_shape := sel.*2 ++ rest;
          nd_value := fun idx =>
            ds_value ds (zip_with Z.add (sel.*1) idx ++ drop (length slices) idx) |}.

(** A file: its groups in enumeration order, each with its datasets. *)
Definition Group : Type := list (string * Dataset).
Definition File : Type := list (string * Group).

(** The value under the first occurrence of a name. *)
Fixpoint assoc {V} (key : string) (l : list (string * V)) : option V :=
  match l with
  | [] => None
  | kv :: l' => if String.eqb kv.1 key then Some kv.2 else assoc key l'
  end.

(** [self.h5[group]] for the name of a group. *)
Definition file_group (f : File) (group : string) : option Group :=
  assoc group f.

(** Every dataset of the file under its path [group/item]. *)
Definition file_datasets (f : File) : list (string * Dataset) :=
  g ← f; (fun kv => (g.1 +:+ "/" +:+ kv.1, kv.2)) <$> g.2.

(** [self.h5[path]] for the path of a dataset. *)
Definition file_dataset (f : File) (path : string) : option Dataset :=
  assoc path (file_datasets f).

(** ** The iterator object *)

Record Hdf5Iterator : Type := {
  hdf5_path : string;
  h5 : File;
  h5_groups : list string;
  h5_items : list string;
  rng : G;
  shape : list (option Z);
  pos : list (option Z)
}.

Definition set_rng (self : Hdf5Iterator) (g : G) : Hdf5Iterator :=
  {| hdf5_path := hdf5_path self; h5 := h5 self; h5_groups := h5_groups self;
     h5_items := h5_items self; rng := g; shape := shape self; pos := pos self |}.

(** Methods: a result and the object after the call. *)
Definition M (X : Type) : Type := Hdf5Iterator → result X * Hdf5Iterator.

Definition ret {X} (x : X) : M X := fun self => (Ok x, self).
Definition raise {X} (e : exn) : M X := fun self => (Raise e, self).
Definition lift {X} (r : result X) : M X := fun self => (r, self).
Definition bind {X Y} (m : M X) (k : X → M Y) : M Y := fun self =>
  match m self with
  | (Ok x, self') => k x self'
  | (Raise e, self') => (Raise e, self')
  end.

Notation "'do' x <- m ; k" := (bind m (fun x => k))
  (at level 10, x name, m at level 100, k at level 200).

(** [self.rng.randint(high)]: a draw from [0, high); numpy refuses an empty
    range and leaves the generator as it was. *)
Definition rng_randint (high : Z) : M Z := fun self =>
  if high <=? 0 then (Raise (ValueError "low >= high"), self)
  else let '(v, g) := bounded_draw (rng self) high in (Ok v, set_rng self g).

(** [self.rng.choice(a)]: one element of a non-empty list, by a draw of its
    index. *)
Definition rng_choice (a : list string) : M string := fun self =>
  match a with
  | [] => (Raise (ValueError "a must be non-empty"), self)
  | x0 :: _ =>
      let '(i, g) := bounded_draw (rng self) (Z.of_nat (length a)) in
      (Ok (nth (Z.to_nat i) a x0), set_rng self g)
  end.

(** ** [__init__] *)

Definition default_seed : Z := 41.

(** Lines 34-36: the paths of the datasets, group by group. *)
Fixpoint collect_items (f : File) (groups : list string) (items : list string)
  : result (list string) :=
  match groups with
  | [] => Ok items
  | group :: groups' =>
      match file_group f group with
      | None => Raise (KeyError group)
      | Some members =>
          collect_items f groups'
            (items ++ ((fun kv => group +:+ "/" +:+ kv.1) <$> members))
      end
  end.

Definition __init__ (fs : string → option File) (hdf5_path : string)
    (shape : list (option Z)) (pos : option (list (option Z))) (seed : Z)
  : result Hdf5Iterator :=
  match fs hdf5_path with
  | None => Raise (OSError "Unable to open file")
  | Some f =>
      let groups := f.*1 in
      try items <- collect_items f groups [];
      Ok {| hdf5_path := hdf5_path; h5 := f; h5_groups := groups;
            h5_items := items; rng := RandomState seed; shape := shape;
            pos := match pos with
                   | Some p => p
                   | None => (fun _ => None) <$> shape
                   end |}
  end.

(** ** [__next__] *)

Definition num_tries : nat := 500.

(** Lines 53-56: a copy of [self.shape] in which every [None] is replaced by
    the extent of the item on that dimension; [j] is the index of the head
    of [dims]. *)
Fixpoint resolve_shape (j : nat) (dims : list (option Z)) (item_shape : list N)
  : result (list Z) :=
  match dims with
  | [] => Ok []
  | dim :: dims' =>
      try d <- match dim with
               | Some d => Ok d
               | None =>
                   match item_shape !! j with
                   | Some have_dim => Ok (Z.of_N have_dim)
                   | None => Raise (IndexError "tuple index out of range")
                   end
               end;
      try ds <- resolve_shape (S j) dims' item_shape;
      Ok (d :: ds)
  end.

(** Line 59: does some wanted extent exceed the extent the item has? *)
Definition out_of_bounds (item_shape : list N) (want : list Z) : bool :=
  existsb (fun hw => Z.of_N hw.1 <? hw.2) (zip item_shape want).

(** Lines 64-71: one slice per triple of [zip(next_item.shape, shape,
    self.pos)]. *)
Fixpoint choose_slices (item_shape : list N) (want : list Z) (poss : list (option Z))
  : M (list slice) :=
  match item_shape, want, poss with
  | have_dim :: item_shape', want_dim :: want', want_pos :: poss' =>
      do slice_start <- match want_pos with
                        | None => rng_randint (Z.of_N have_dim - want_dim + 1)
                        | Some p => ret p
                        end;
      let slice_end := slice_start + want_dim in
      do slices <- choose_slices item_shape' want' poss';
      ret (Slice slice_start slice_end :: slices)
  | _, _, _ => ret []
  end.

(** The local variables of the loop body when it reaches line 72. *)
Record Selection : Type := {
  sel_path : string;
  next_item : Dataset;
  sel_shape : list Z;
  sel_slices : list slice
}.

(** Lines 49-71 of one pass of the loop: [None] when the pass ends in
    [continue]. *)
Definition select : M (option Selection) := fun self =>
  (do path <- rng_choice (h5_items self);
   do item <- match file_dataset (h5 self) path with
              | Some item => ret item
              | None => raise (KeyError path)
              end;
   do want <- lift (resolve_shape 0 (shape self) (ds_shape item));
   if out_of_bounds (ds_shape item) want then ret None
   else
     do slices <- choose_slices (ds_shape item) want (pos self);
     ret (Some {| sel_path := path; next_item := item;
                  sel_shape := want; sel_slices := slices |})) self.

(** One pass of the loop, with the read of lines 72-73. *)
Definition attempt : M (option ndarray) :=
  do r <- select;
  match r with
  | None => ret None
  | Some sel =>
      do output_slice <- lift (dataset_getitem (next_item sel) (sel_slices sel));
      ret (Some output_slice)
  end.

(** Lines 48-74: the loop over [range(num_tries)] and the final [raise]. *)
Fixpoint for_tries (tries : list nat) : M ndarray :=
  match tries with
  | [] => raise (ValueError no_slice_msg)
  | _ :: tries' =>
      do r <- attempt;
      match r with
      | Some output_slice => ret output_slice
      | None => for_tries tries'
      end
  end.

Definition __next__ : M ndarray := for_tries (seq 0 num_tries).

(** The number of passes of the loop that a call runs. *)
Fixpoint passes (tries : list nat) (self : Hdf5Iterator) : nat :=
  match tries with
  | [] => 0
  | _ :: tries' =>
      match attempt self with
      | (Ok None, self') => S (passes tries' self')
      | _ => 1
      end
  end.

(** [calls n]: [n] calls of [__next__] in a row, with the outcome of each. *)
Fixpoint calls (n : nat) (self : Hdf5Iterator) : list (result ndarray) * Hdf5Iterator :=
  match n with
  | O => ([], self)
  | S n' =>
      let '(r, self') := __next__ self in
      let '(rs, self'') := calls n' self' in
      (r :: rs, self'')
  end.

(** [__iter__] (lines 76-77): the iterator is the object itself. *)
Definition __iter__ : M Hdf5Iterator := fun self => (Ok self, self).

(** [for a in h: ...] (line 116), run for at most [fuel] turns: the arrays
    handed to the body, the exception that ended the loop if one did, and
    the object after. The loop asks [__iter__] for the iterator once and
    [__next__] for each turn. *)
Fixpoint for_turns (fuel : nat) (it : Hdf5Iterator)
  : list ndarray * option exn * Hdf5Iterator :=
  match fuel with
  | O => ([], None, it)
  | S fuel' =>
      match __next__ it with
      | (Ok a, it') =>
          let '(seen, e, it'') := for_turns fuel' it' in (a :: seen, e, it'')
      | (Raise e, it') => ([], Some e, it')
      end
  end.

Definition for_each (fuel : nat) (h : Hdf5Iterator)
  : list ndarray * option exn * Hdf5Iterator :=
  match __iter__ h with
  | (Ok it, _) => for_turns fuel it
  | (Raise e, h') => ([], Some e, h')
  end.

(** ** The self-test (lines 79-116)

    [values i j] stands for the array [datasets[i][j]] that the self-test
    draws at random; every one has shape (15, 20). *)
Definition main_group (values : nat → list Z → A) : Group :=
  (fun j => (String (Ascii.ascii_of_nat (48 + j)) EmptyString,
             {| ds_shape := [15%N; 20%N]; ds_value := values j |})) <$> seq 0 10.

Definition main_file (values : nat → nat → list Z → A) : File :=
  (fun ik => (ik.2, main_group (values ik.1)))
    <$> zip (seq 0 5) ["a"; "b"; "c"; "d"; "e"]%string.

(** The file system once the self-test has written its file. *)
Definition main_fs (values : nat → nat → list Z → A) (path : string) : option File :=
  if String.eqb path "._test.h5" then Some (main_file values) else None.

(** How the checks of the self-test end: all passed, an [assert] failed on
    a line, or an exception went uncaught. *)
Inductive main_outcome : Type :=
  | Passed
  | AssertionFailed (line : nat)
  | Uncaught (e : exn).

(** [h = Hdf5Iterator('._test.h5', dims); a = next(h); assert a.shape ==
    expected], followed by [rest]. *)
Definition check_shape (values : nat → nat → list Z → A) (dims : list (option Z))
    (expected : list N) (line : nat) (rest : main_outcome) : main_outcome :=
  match __init__ (main_fs values) "._test.h5" dims None default_seed with
  | Raise e => Uncaught e
  | Ok h =>
      match (__next__ h).1 with
      | Raise e => Uncaught e
      | Ok a => if bool_decide (nd_shape a = expected) then rest else AssertionFailed line
      end
  end.

(** Lines 102-110: the [try] around a shape that is too big; only a
    [ValueError] is caught. *)
Definition check_too_big (values : nat → nat → list Z → A) (rest : main_outcome)
  : main_outcome :=
  match __init__ (main_fs values) "._test.h5" [Some 100; Some 100] None default_seed with
  | Raise (ValueError _) => rest
  | Raise e => Uncaught e
  | Ok h =>
      match (__next__ h).1 with
      | Raise (ValueError _) => rest
      | Raise e => Uncaught e
      | Ok a =>
          if bool_decide (nd_shape a = [15%N; 20%N])
          then AssertionFailed 110
          else AssertionFailed 106
      end
  end.

(** Lines 90-114. *)
Definition main_checks (values : nat → nat → list Z → A) : main_outcome :=
  check_shape values [Some 2; None] [2%N; 20%N] 92
    (check_shape values [Some 0; None] [0%N; 20%N] 96
       (check_shape values [None; None] [15%N; 20%N] 100
          (check_too_big values
             (check_shape values [Some 2; Some 5] [2%N; 5%N] 114 Passed)))).

End Sampler.

(** ** A concrete random source

    A linear congruential generator, to run the iterator on examples. *)
Definition lcg_next (g : Z) : Z := (g * 1103515245 + 12345) mod 2147483648.

Definition lcg_draw (g high : Z) : Z * Z := (lcg_next g mod high, lcg_next g).

#[export] Instance lcg : RandomSource Z :=
  {| RandomState := fun seed => seed mod 4294967296;
     bounded_draw := lcg_draw;
     bounded_draw_range := fun g high Hpos => Z.mod_pos_bound (lcg_next g) high Hpos |}.

(** ** The file of the module's self-test

    Five groups [a] to [e]; the self-test stores ten datasets of shape
    (15, 20) in each; their elements play no part and are zero here. *)
Definition test_dataset : Dataset (A := Z) :=
  {| ds_shape := [15%N; 20%N]; ds_value := fun _ => 0 |}.

Definition test_group : Group (A := Z) :=
  (fun j => (String (Ascii.ascii_of_nat (48 + j)) EmptyString, test_dataset)) <$> seq 0 10.

Definition test_file : File (A := Z) :=
  (fun k => (k, test_group)) <$> ["a"; "b"; "c"; "d"; "e"]%string.

Definition test_fs (path : string) : option (File (A := Z)) :=
  if String.eqb path "._test.h5" then Some test_file else None.

(** A second path to the same contents. *)
Definition copy_fs (path : string) : option (File (A := Z)) :=
  if String.eqb path "copy.h5" then Some test_file else None.



(** The iterator that [__init__] builds over a file with the default
    seed. *)
Definition iterator_over (f : File (A := Z)) (dims poss : list (option Z))
  : Hdf5Iterator (A := Z) (G := Z) :=
  {| hdf5_path := "._test.h5"; h5 := f; h5_groups := f.*1;
     h5_items := (file_datasets f).*1; rng := RandomState default_seed;
     shape := dims; pos := poss |}.

(** The shape of what a call returns, as the self-test looks at it. *)
Definition shape_of (r : result (ndarray (A := Z)) * Hdf5Iterator (A := Z) (G := Z))
  : result (list N) :=
  match r.1 with
  | Ok a => Ok (nd_shape a)
  | Raise e => Raise e
  end.

Definition test_next (dims : list (option Z)) (poss : option (list (option Z)))
  : result (list N) :=
  match __init__ test_fs "._test.h5" dims poss default_seed with
  | Ok h => shape_of (__next__ h)
  | Raise e => Raise e
  end.

(** * Properties *)

Section Properties.

Context {A : Type} {G : Type} `{RandomSource G}.

Implicit Types (self : Hdf5Iterator (A := A) (G := G)) (item : Dataset (A := A)).
Implicit Types (f : File (A := A)) (sel : Selection (A := A)).

(** ** The notions the statements use *)

(** [same_config self self']: the two objects differ at most in the state
    of the generator. *)
Definition same_config self self' : Prop :=
  hdf5_path self' = hdf5_path self ∧ h5 self' = h5 self ∧
  h5_groups self' = h5_groups self ∧ h5_items self' = h5_items self ∧
  shape self' = shape self ∧ pos self' = pos self.

Definition preserves {X} (m : M X) : Prop := ∀ self, same_config self (m self).2.

(** The slice the loop builds on a dimension where the item has [have_dim],
    the resolved shape wants [want_dim] and the position is [want_pos]. *)
Definition slice_for (have_dim : N) (want_dim : Z) (want_pos : option Z) (sl : slice)
  : Prop :=
  slice_stop sl = slice_start sl + want_dim ∧
  match want_pos with
  | Some p => slice_start sl = p
  | None => 0 ≤ slice_start sl ≤ Z.of_N have_dim - want_dim
  end.

(** [returned self self' sel a]: a call on [self] returned [a] and left
    [self']; [sel] holds the item, the resolved shape and the slices of the
    pass that made the read. *)
Definition returned self self' sel (a : ndarray (A := A)) : Prop :=
  ∃ self0, same_config self self0 ∧
           select self0 = (Ok (Some sel), self') ∧
           dataset_getitem (next_item sel) (sel_slices sel) = Ok a.

(** An item fits on a dimension when the resolved extent is between 0 and
    what the item has and an explicit position keeps the slice inside. *)
Definition dim_fits (have_dim : N) (dim want_pos : option Z) : Prop :=
  let want_dim := default (Z.of_N have_dim) dim in
  0 ≤ want_dim ≤ Z.of_N have_dim ∧
  match want_pos with
  | None => True
  | Some p => 0 ≤ p ∧ p + want_dim ≤ Z.of_N have_dim
  end.

(** [agree self1 self2]: the same file contents, items, shape and position,
    and generators in the same state; the paths may differ. *)
Definition agree self1 self2 : Prop :=
  h5 self1 = h5 self2 ∧ h5_items self1 = h5_items self2 ∧ rng self1 = rng self2 ∧
  shape self1 = shape self2 ∧ pos self1 = pos self2.

Definition respects {X} (m : M X) : Prop :=
  ∀ self1 self2, agree self1 self2 →
    (m self1).1 = (m self2).1 ∧ agree (m self1).2 (m self2).2.

(** [pass_error self e]: what a pass of the loop can raise on an iterator
    configured like [self], with the cause: the empty list of items, a path
    the file does not have, or an item without a dimension on which the
    shape is [None]. *)
Definition pass_error self (e : exn) : Prop :=
  (h5_items self = [] ∧ e = ValueError "a must be non-empty") ∨
  (∃ path, path ∈ h5_items self ∧ file_dataset (h5 self) path = None ∧
           e = KeyError path) ∨
  (∃ path item k,
     path ∈ h5_items self ∧ file_dataset (h5 self) path = Some item ∧
     shape self !! k = Some None ∧ (length (ds_shape item) ≤ k)%nat ∧
     e = IndexError "tuple index out of range").

(** [every_item_passes self]: the list of items is not empty, and every
    item listed is in the file, has every dimension of the shape and, where
    the shape holds an integer, at least that extent. *)
Definition every_item_passes self : Prop :=
  h5_items self ≠ [] ∧
  ∀ path, path ∈ h5_items self →
    ∃ item, file_dataset (h5 self) path = Some item ∧
      ∀ k dim, shape self !! k = Some dim →
        ∃ have_dim, ds_shape item !! k = Some have_dim ∧
                    default (Z.of_N have_dim) dim ≤ Z.of_N have_dim.

(** [some_dim_too_big self]: the list of items is not empty, every item
    listed is in the file and has each dimension on which the shape is
    [None], and on one dimension the shape holds an integer greater than the
    extent of every item. *)
Definition some_dim_too_big self : Prop :=
  h5_items self ≠ [] ∧
  ∃ j want_dim, shape self !! j = Some (Some want_dim) ∧
    ∀ path, path ∈ h5_items self →
      ∃ item have_dim,
        file_dataset (h5 self) path = Some item ∧
        ds_shape item !! j = Some have_dim ∧ Z.of_N have_dim < want_dim ∧
        ∀ k, shape self !! k = Some None → (k < length (ds_shape item))%nat.

(** The iterator that the self-test builds for a shape: the position is
    left out, the seed is the default. *)
Definition main_iterator (values : nat → nat → list Z → A) (dims : list (option Z))
  : Hdf5Iterator (A := A) (G := G) :=
  {| hdf5_path := "._test.h5"; h5 := main_file values;
     h5_groups := (main_file values).*1;
     h5_items := (file_datasets (main_file values)).*1;
     rng := RandomState default_seed; shape := dims;
     pos := (fun _ => None) <$> dims |}.

(** One draw of an item out of [n]: the state of the generator after. *)
Definition item_draw (n : nat) (g : G) : G := (bounded_draw g (Z.of_nat n)).2.

(** ** The monad *)

Lemma bind_ok {X Y} (m : M X) (k : X → M Y) self y self' :
  bind m k self = (Ok y, self') →
  ∃ x self1, m self = (Ok x, self1) ∧ k x self1 = (Ok y, self').
Proof.
  unfold bind. destruct (m self) as [[x|e] self1]; intros Heq.
  - exists x, self1. split; [reflexivity | exact Heq].
  - discriminate Heq.
Qed.

Lemma bind_eq {X Y} (m : M X) (k : X → M Y) self x self1 :
  m self = (Ok x, self1) → bind m k self = k x self1.
Proof. intros Hm. unfold bind. rewrite Hm. reflexivity. Qed.

(** ** What a call leaves alone *)

Lemma same_config_refl self : same_config self self.
Proof. repeat split. Qed.

Lemma same_config_trans self1 self2 self3 :
  same_config self1 self2 → same_config self2 self3 → same_config self1 self3.
Proof.
  unfold same_config. intros (?&?&?&?&?&?) (?&?&?&?&?&?).
  repeat split; congruence.
Qed.

Lemma same_config_set_rng self g : same_config self (set_rng self g).
Proof. repeat split. Qed.

Lemma preserves_ret {X} (x : X) : preserves (ret x).
Proof. intros self. apply same_config_refl. Qed.

Lemma preserves_raise {X} e : preserves (raise (X := X) e).
Proof. intros self. apply same_config_refl. Qed.

Lemma preserves_lift {X} (r : result X) : preserves (lift r).
Proof. intros self. apply same_config_refl. Qed.

Lemma preserves_bind {X Y} (m : M X) (k : X → M Y) :
  preserves m → (∀ x, preserves (k x)) → preserves (bind m k).
Proof.
  intros Hm Hk self. unfold bind. specialize (Hm self).
  destruct (m self) as [[x|e] self1]; simpl in *.
  - eapply same_config_trans; [exact Hm | apply Hk].
  - exact Hm.
Qed.

Lemma preserves_randint high : preserves (rng_randint high).
Proof.
  intros self. unfold rng_randint. destruct (high <=? 0).
  - apply same_config_refl.
  - destruct (bounded_draw (rng self) high). apply same_config_set_rng.
Qed.

Lemma preserves_choice a : preserves (rng_choice a).
Proof.
  intros self. unfold rng_choice. destruct a as [|x0 a'].
  - apply same_config_refl.
  - destruct (bounded_draw (rng self) _). apply same_config_set_rng.
Qed.

Lemma preserves_choose_slices item_shape want poss :
  preserves (choose_slices item_shape want poss).
Proof.
  revert want poss.
  induction item_shape as [|have_dim item_shape' IH]; intros want poss.
  - apply preserves_ret.
  - destruct want as [|want_dim want']; [apply preserves_ret|].
    destruct poss as [|want_pos poss']; [apply preserves_ret|].
    simpl. apply preserves_bind.
    + destruct want_pos; [apply preserves_ret | apply preserves_randint].
    + intros slice_start. apply preserves_bind; [apply IH|].
      intros slices. apply preserves_ret.
Qed.

Lemma preserves_select : preserves select.
Proof.
  intros self. unfold select.
  apply preserves_bind; [apply preserves_choice|]. intros path.
  apply preserves_bind.
  { destruct (file_dataset (h5 self) path); [apply preserves_ret | apply preserves_raise]. }
  intros item. apply preserves_bind; [apply preserves_lift|]. intros want.
  destruct (out_of_bounds (ds_shape item) want); [apply preserves_ret|].
  apply preserves_bind; [apply preserves_choose_slices|].
  intros slices. apply preserves_ret.
Qed.

Lemma preserves_attempt : preserves attempt.
Proof.
  unfold attempt. apply preserves_bind; [apply preserves_select|].
  intros [sel|]; [|apply preserves_ret].
  apply preserves_bind; [apply preserves_lift|]. intros a. apply preserves_ret.
Qed.

Lemma preserves_for_tries tries : preserves (for_tries tries).
Proof.
  induction tries as [|i tries' IH]; simpl.
  - apply preserves_raise.
  - apply preserves_bind; [apply preserves_attempt|].
    intros [a|]; [apply preserves_ret | exact IH].
Qed.

(** C9. A call of [__next__], whether it returns a slice or raises, changes
    nothing of the object but the state of its generator: the path, the
    file, the list of groups, the list of items, the shape and the position
    are those of before the call. *)
Theorem next_changes_only_rng self :
  let self' := (__next__ self).2 in
  hdf5_path self' = hdf5_path self ∧ h5 self' = h5 self ∧
  h5_groups self' = h5_groups self ∧ h5_items self' = h5_items self ∧
  shape self' = shape self ∧ pos self' = pos self.
Proof. exact (preserves_for_tries (seq 0 num_tries) self). Qed.

(** ** [__init__] *)

Lemma assoc_is_Some {V} (key : string) (l : list (string * V)) :
  key ∈ l.*1 → is_Some (assoc key l).
Proof.
  induction l as [|kv l' IH]; simpl; intros Hin.
  - inversion Hin.
  - destruct (String.eqb kv.1 key) eqn:Heq; [eexists; reflexivity|].
    apply IH. apply elem_of_cons in Hin as [Hk|Hin]; [|exact Hin].
    subst key. rewrite String.eqb_refl in Heq. discriminate Heq.
Qed.

Lemma assoc_Some_elem {V} (key : string) (l : list (string * V)) v :
  assoc key l = Some v → (key, v) ∈ l.
Proof.
  induction l as [|kv l' IH]; simpl; intros Heq; [discriminate Heq|].
  destruct (String.eqb kv.1 key) eqn:Hk.
  - apply String.eqb_eq in Hk. injection Heq as <-. subst key.
    destruct kv. apply elem_of_cons; left; reflexivity.
  - apply elem_of_cons; right. apply IH, Heq.
Qed.


Lemma collect_items_resolve f groups items items' :
  collect_items f groups items = Ok items' →
  (∀ path, path ∈ items → path ∈ (file_datasets f).*1) →
  ∀ path, path ∈ items' → path ∈ (file_datasets f).*1.
Proof.
  revert items. induction groups as [|group groups' IH]; intros items; simpl.
  - intros [= <-] Hall. exact Hall.
  - destruct (file_group f group) as [members|] eqn:Hm; [|discriminate].
    intros Hcollect Hall. apply (IH _ Hcollect).
    intros path Hin. apply elem_of_app in Hin as [Hin|Hin]; [apply Hall, Hin|].
    apply list_elem_of_fmap in Hin as (kv & -> & Hkv).
    apply list_elem_of_fmap.
    exists (group +:+ "/" +:+ kv.1, kv.2). split; [reflexivity|].
    unfold file_datasets. apply list_elem_of_bind.
    exists (group, members). split.
    + apply list_elem_of_fmap. exists kv. split; [reflexivity | exact Hkv].
    + apply assoc_Some_elem, Hm.
Qed.

(** Every path that [__init__] lists names a dataset of the file. *)
Lemma init_items_resolve fs path dims poss seed self :
  __init__ fs path dims poss seed = Ok self →
  ∀ p, p ∈ h5_items self → is_Some (file_dataset (h5 self) p).
Proof.
  unfold __init__. destruct (fs path) as [f|]; [|discriminate].
  destruct (collect_items f f.*1 []) as [items|e] eqn:Hc; simpl; [|discriminate].
  intros [= <-] p Hp. simpl in *. apply assoc_is_Some.
  eapply collect_items_resolve; [exact Hc | | exact Hp].
  intros q Hq. inversion Hq.
Qed.


(** ** Resolving the shape (lines 53-56) *)

Lemma resolve_shape_lookup j dims item_shape want :
  resolve_shape j dims item_shape = Ok want →
  length want = length dims ∧
  ∀ k dim, dims !! k = Some dim →
    ∃ w, want !! k = Some w ∧
         match dim with
         | Some d => w = d
         | None => ∃ have_dim, item_shape !! (j + k)%nat = Some have_dim ∧ w = Z.of_N have_dim
         end.
Proof.
  revert j want. induction dims as [|dim0 dims' IH]; intros j want; simpl.
  - intros [= <-]. split; [reflexivity|]. intros k dim Hk. discriminate Hk.
  - destruct (match dim0 with Some d => Ok d | None => _ end) as [d|e] eqn:Hhead;
      simpl; [|discriminate].
    destruct (resolve_shape (S j) dims' item_shape) as [ds|e] eqn:Htail;
      simpl; [|discriminate].
    intros [= <-]. destruct (IH _ _ Htail) as [Hlen Hall]. split; [simpl; lia|].
    intros [|k] dim Hk; simpl in *.
    + injection Hk as <-. exists d. split; [reflexivity|].
      destruct dim0 as [d0|]; [congruence|].
      rewrite Nat.add_0_r.
      destruct (item_shape !! j) as [have_dim|]; [|discriminate].
      injection Hhead as <-. eauto.
    + destruct (Hall k dim Hk) as (w & Hw & Hdim). exists w. split; [exact Hw|].
      destruct dim; [exact Hdim|]. replace (j + S k)%nat with (S j + k)%nat by lia.
      exact Hdim.
Qed.

Lemma resolve_shape_ok j dims item_shape :
  (∀ k, dims !! k = Some None → is_Some (item_shape !! (j + k)%nat)) →
  ∃ want, resolve_shape j dims item_shape = Ok want.
Proof.
  revert j. induction dims as [|dim0 dims' IH]; intros j Hwild; simpl.
  - eexists; reflexivity.
  - destruct (IH (S j)) as [ds Hds].
    { intros k Hk. replace (S j + k)%nat with (j + S k)%nat by lia.
      apply Hwild. exact Hk. }
    rewrite Hds. destruct dim0 as [d|]; simpl; [eexists; reflexivity|].
    destruct (Hwild 0%nat eq_refl) as [have_dim Hh].
    rewrite Nat.add_0_r in Hh. rewrite Hh. simpl. eexists; reflexivity.
Qed.

Lemma resolve_shape_index_error j dims item_shape k :
  dims !! k = Some None → item_shape !! (j + k)%nat = None →
  (∀ i, (i < k)%nat → dims !! i = Some None → is_Some (item_shape !! (j + i)%nat)) →
  resolve_shape j dims item_shape = Raise (IndexError "tuple index out of range").
Proof.
  revert j k. induction dims as [|dim0 dims' IH]; intros j k Hk Hnone Hbefore.
  - discriminate Hk.
  - destruct k as [|k]; simpl in *.
    + injection Hk as ->. rewrite Nat.add_0_r in Hnone. rewrite Hnone. reflexivity.
    + assert (∃ d, match dim0 with
                   | Some d => Ok d
                   | None => match item_shape !! j with
                             | Some have_dim => Ok (Z.of_N have_dim)
                             | None => Raise (IndexError "tuple index out of range")
                             end
                   end = Ok d) as [d ->].
      { destruct dim0 as [d|]; [eexists; reflexivity|].
        destruct (Hbefore 0%nat ltac:(lia) eq_refl) as [h Hh].
        rewrite Nat.add_0_r in Hh. rewrite Hh. eexists; reflexivity. }
      simpl. rewrite (IH (S j) k Hk).
      * reflexivity.
      * replace (S j + k)%nat with (j + S k)%nat by lia. exact Hnone.
      * intros i Hi Hdim. replace (S j + i)%nat with (j + S i)%nat by lia.
        apply Hbefore; [lia | exact Hdim].
Qed.

(** ** The bounds check (line 59) *)

Lemma out_of_bounds_false item_shape want :
  out_of_bounds item_shape want = false ↔
  ∀ k have_dim want_dim,
    item_shape !! k = Some have_dim → want !! k = Some want_dim →
    want_dim ≤ Z.of_N have_dim.
Proof.
  unfold out_of_bounds. revert want.
  induction item_shape as [|h item_shape' IH]; intros want; simpl.
  - split; [|reflexivity]. intros _ k have_dim want_dim Hk. discriminate Hk.
  - destruct want as [|w want']; simpl.
    + split; [|reflexivity]. intros _ k have_dim want_dim _ Hk. discriminate Hk.
    + rewrite orb_false_iff, IH, Z.ltb_ge. split.
      * intros [Hhead Htail] [|k] have_dim want_dim; simpl.
        -- intros [= <-] [= <-]. exact Hhead.
        -- apply Htail.
      * intros Hall. split.
        -- apply (Hall 0%nat); reflexivity.
        -- intros k. apply (Hall (S k)).
Qed.

Lemma out_of_bounds_true item_shape want k have_dim want_dim :
  item_shape !! k = Some have_dim → want !! k = Some want_dim →
  Z.of_N have_dim < want_dim → out_of_bounds item_shape want = true.
Proof.
  intros Hh Hw Hlt. destruct (out_of_bounds item_shape want) eqn:Hb; [reflexivity|].
  pose proof (proj1 (out_of_bounds_false _ _) Hb k _ _ Hh Hw). lia.
Qed.

(** ** The draws *)

Lemma randint_ok high self :
  0 < high →
  ∃ v g, rng_randint high self = (Ok v, set_rng self g) ∧ 0 ≤ v < high.
Proof.
  intros Hpos. unfold rng_randint.
  destruct (Z.leb_spec high 0) as [Hle|_]; [lia|].
  pose proof (bounded_draw_range (rng self) high Hpos) as Hrange.
  destruct (bounded_draw (rng self) high) as [v g]. exists v, g.
  split; [reflexivity | exact Hrange].
Qed.

Lemma choice_ok a self :
  a ≠ [] → ∃ x g, rng_choice a self = (Ok x, set_rng self g) ∧ x ∈ a.
Proof.
  intros Hne. unfold rng_choice. destruct a as [|x0 a']; [congruence|].
  pose proof (bounded_draw_range (rng self) (Z.of_nat (length (x0 :: a')))) as Hrange.
  destruct (bounded_draw (rng self) _) as [i g]. eexists _, g.
  split; [reflexivity|]. apply list_elem_of_In, nth_In.
  simpl in *. lia.
Qed.

Lemma choice_empty self :
  rng_choice [] self = (Raise (ValueError "a must be non-empty"), self).
Proof. reflexivity. Qed.

Lemma choice_inv a self x self1 :
  rng_choice a self = (Ok x, self1) → x ∈ a.
Proof.
  intros Heq. destruct a as [|x0 a']; [discriminate Heq|].
  destruct (choice_ok (x0 :: a') self) as (y & g & Hy & Hin); [congruence|].
  rewrite Hy in Heq. injection Heq as <- _. exact Hin.
Qed.

(** ** Choosing the slices (lines 64-71) *)

Lemma choose_slices_ok item_shape want poss self :
  out_of_bounds item_shape want = false →
  ∃ slices self',
    choose_slices item_shape want poss self = (Ok slices, self') ∧
    length slices = (length item_shape `min` (length want `min` length poss))%nat ∧
    ∀ k sl, slices !! k = Some sl →
      ∃ have_dim want_dim want_pos,
        item_shape !! k = Some have_dim ∧ want !! k = Some want_dim ∧
        poss !! k = Some want_pos ∧ slice_for have_dim want_dim want_pos sl.
Proof.
  revert want poss self.
  induction item_shape as [|h item_shape' IH]; intros want poss self Hfit.
  { exists [], self. repeat split. intros k sl Hk. discriminate Hk. }
  destruct want as [|w want'].
  { exists [], self. repeat split. intros k sl Hk. discriminate Hk. }
  destruct poss as [|p poss'].
  { exists [], self. split; [reflexivity|]. split; [simpl; lia|].
    intros k sl Hk. discriminate Hk. }
  unfold out_of_bounds in Hfit. simpl in Hfit.
  apply orb_false_iff in Hfit as [Hhead Htail]. apply Z.ltb_ge in Hhead.
  assert (∃ start self1,
    (match p with
     | None => rng_randint (Z.of_N h - w + 1)
     | Some p0 => ret p0
     end) self = (Ok start, self1) ∧
    slice_for h w p (Slice start (start + w))) as (start & self1 & Hstart & Hsl).
  { destruct p as [p0|].
    - exists p0, self. repeat split.
    - destruct (randint_ok (Z.of_N h - w + 1) self) as (v & g & Hv & Hrange); [lia|].
      exists v, (set_rng self g). split; [exact Hv|]. split; simpl; [reflexivity | lia]. }
  destruct (IH want' poss' self1 Htail) as (slices & self' & Hrest & Hlen & Hall).
  exists (Slice start (start + w) :: slices), self'. split; [|split].
  - simpl. rewrite (bind_eq _ _ _ _ _ Hstart).
    rewrite (bind_eq _ _ _ _ _ Hrest). reflexivity.
  - simpl. rewrite Hlen. reflexivity.
  - intros [|k] sl Hk; simpl in *.
    + injection Hk as <-. exists h, w, p. repeat split; apply Hsl.
    + apply Hall, Hk.
Qed.

(** ** The read (line 72) *)

Lemma translate_slice_inside start want_dim have_dim :
  0 ≤ start → 0 ≤ want_dim → start + want_dim ≤ Z.of_N have_dim →
  translate_slice (Slice start (start + want_dim)) have_dim = (start, Z.to_N want_dim).
Proof.
  intros Hs Hw Hfit. unfold translate_slice, adjust_index. simpl.
  destruct (Z.ltb_spec start 0) as [?|_]; [lia|].
  destruct (Z.ltb_spec (start + want_dim) 0) as [?|_]; [lia|].
  f_equal; [lia|]. f_equal. lia.
Qed.

Lemma getitem_ok item slices :
  (length slices ≤ length (ds_shape item))%nat →
  ∃ a, dataset_getitem item slices = Ok a ∧
       nd_shape a = (zip_with translate_slice slices (ds_shape item)).*2
                    ++ drop (length slices) (ds_shape item).
Proof.
  intros Hlen. unfold dataset_getitem.
  destruct (Nat.ltb_spec (length (ds_shape item)) (length slices)) as [?|_]; [lia|].
  eexists. split; reflexivity.
Qed.

Lemma getitem_shape_sliced item slices a k sl have_dim :
  dataset_getitem item slices = Ok a →
  slices !! k = Some sl → ds_shape item !! k = Some have_dim →
  nd_shape a !! k = Some (translate_slice sl have_dim).2.
Proof.
  intros Hget Hsl Hh. unfold dataset_getitem in Hget.
  destruct (length (ds_shape item) <? length slices)%nat; [discriminate Hget|].
  injection Hget as <-. simpl.
  rewrite lookup_app_l.
  - rewrite list_lookup_fmap, lookup_zip_with, Hsl. simpl. rewrite Hh. reflexivity.
  - rewrite length_fmap, length_zip_with.
    apply lookup_lt_Some in Hsl, Hh. lia.
Qed.

Lemma getitem_shape_whole item slices a k :
  dataset_getitem item slices = Ok a → (length slices ≤ k)%nat →
  nd_shape a !! k = ds_shape item !! k.
Proof.
  intros Hget Hk. unfold dataset_getitem in Hget.
  destruct (Nat.ltb_spec (length (ds_shape item)) (length slices)) as [?|Hle];
    [discriminate Hget|].
  injection Hget as <-. simpl.
  assert (length (zip_with translate_slice slices (ds_shape item)).*2 = length slices)
    as Hlen by (rewrite length_fmap, length_zip_with; lia).
  rewrite lookup_app_r by lia. rewrite Hlen, lookup_drop. f_equal. lia.
Qed.

Lemma zero_extent_slice sl have_dim :
  slice_stop sl = slice_start sl + 0 → (translate_slice sl have_dim).2 = 0%N.
Proof.
  intros Hstop. unfold translate_slice. simpl.
  rewrite Hstop, Z.add_0_r, Z.sub_diag. reflexivity.
Qed.

(** ** One pass of the loop *)

Lemma select_inv self sel self' :
  select self = (Ok (Some sel), self') →
  ∃ self1,
    rng_choice (h5_items self) self = (Ok (sel_path sel), self1) ∧
    file_dataset (h5 self) (sel_path sel) = Some (next_item sel) ∧
    resolve_shape 0 (shape self) (ds_shape (next_item sel)) = Ok (sel_shape sel) ∧
    out_of_bounds (ds_shape (next_item sel)) (sel_shape sel) = false ∧
    choose_slices (ds_shape (next_item sel)) (sel_shape sel) (pos self) self1
      = (Ok (sel_slices sel), self').
Proof.
  unfold select. intros Hsel.
  apply bind_ok in Hsel as (path & self1 & Hchoice & Hsel).
  apply bind_ok in Hsel as (item & self2 & Hitem & Hsel).
  apply bind_ok in Hsel as (want & self3 & Hwant & Hsel).
  destruct (file_dataset (h5 self) path) as [item'|] eqn:Hfile; [|discriminate Hitem].
  injection Hitem as -> <-. injection Hwant as Hwant <-.
  destruct (out_of_bounds (ds_shape item) want) eqn:Hfit; [discriminate Hsel|].
  apply bind_ok in Hsel as (slices & self4 & Hslices & Hsel).
  injection Hsel as <- <-. simpl. exists self1. auto.
Qed.

Lemma select_continue self path item want g :
  rng_choice (h5_items self) self = (Ok path, set_rng self g) →
  file_dataset (h5 self) path = Some item →
  resolve_shape 0 (shape self) (ds_shape item) = Ok want →
  out_of_bounds (ds_shape item) want = true →
  select self = (Ok None, set_rng self g).
Proof.
  intros Hchoice Hfile Hwant Hbig. unfold select.
  rewrite (bind_eq _ _ _ _ _ Hchoice), Hfile. unfold bind, ret, lift.
  rewrite Hwant, Hbig. reflexivity.
Qed.

Lemma select_index_error self path item g :
  rng_choice (h5_items self) self = (Ok path, set_rng self g) →
  file_dataset (h5 self) path = Some item →
  resolve_shape 0 (shape self) (ds_shape item)
    = Raise (IndexError "tuple index out of range") →
  select self = (Raise (IndexError "tuple index out of range"), set_rng self g).
Proof.
  intros Hchoice Hfile Hwant. unfold select.
  rewrite (bind_eq _ _ _ _ _ Hchoice), Hfile. unfold bind, ret, lift.
  rewrite Hwant. reflexivity.
Qed.

(** A pass reaches the read as soon as the list of items is not empty and
    every item resolves the shape and passes the bounds check. *)
Lemma select_ok self :
  h5_items self ≠ [] →
  (∀ path, path ∈ h5_items self →
     ∃ item want, file_dataset (h5 self) path = Some item ∧
                  resolve_shape 0 (shape self) (ds_shape item) = Ok want ∧
                  out_of_bounds (ds_shape item) want = false) →
  ∃ sel self', select self = (Ok (Some sel), self').
Proof.
  intros Hne Hall.
  destruct (choice_ok (h5_items self) self Hne) as (path & g & Hchoice & Hin).
  destruct (Hall path Hin) as (item & want & Hfile & Hwant & Hfit).
  destruct (choose_slices_ok (ds_shape item) want (pos self) (set_rng self g) Hfit)
    as (slices & self' & Hslices & _).
  eexists _, self'. unfold select.
  rewrite (bind_eq _ _ _ _ _ Hchoice), Hfile. unfold bind at 1 2, ret at 1, lift.
  rewrite Hwant, Hfit. rewrite (bind_eq _ _ _ _ _ Hslices). reflexivity.
Qed.

(** The slices of a pass: one for each dimension that the item, the shape
    and the position all have, built as [slice_for] says. *)
Lemma select_slices self sel self' :
  select self = (Ok (Some sel), self') →
  length (sel_slices sel)
    = (length (ds_shape (next_item sel))
       `min` (length (sel_shape sel) `min` length (pos self)))%nat ∧
  ∀ k sl, sel_slices sel !! k = Some sl →
    ∃ have_dim want_dim want_pos,
      ds_shape (next_item sel) !! k = Some have_dim ∧
      sel_shape sel !! k = Some want_dim ∧
      pos self !! k = Some want_pos ∧ slice_for have_dim want_dim want_pos sl.
Proof.
  intros Hsel. apply select_inv in Hsel as (self1 & _ & _ & _ & Hfit & Hslices).
  destruct (choose_slices_ok _ _ (pos self) self1 Hfit)
    as (slices & self2 & Heq & Hlen & Hall).
  rewrite Hslices in Heq. injection Heq as <- _. split; assumption.
Qed.

Lemma attempt_inv self a self' :
  attempt self = (Ok (Some a), self') →
  ∃ sel, select self = (Ok (Some sel), self') ∧
         dataset_getitem (next_item sel) (sel_slices sel) = Ok a.
Proof.
  unfold attempt. intros Hat. apply bind_ok in Hat as ([sel|] & self1 & Hsel & Hat).
  - apply bind_ok in Hat as (a' & self2 & Hget & Hat).
    injection Hat as <- <-. injection Hget as Hget <-. eauto.
  - discriminate Hat.
Qed.

Lemma attempt_of_select self sel self' :
  select self = (Ok (Some sel), self') →
  attempt self
    = (match dataset_getitem (next_item sel) (sel_slices sel) with
       | Ok a => Ok (Some a)
       | Raise e => Raise e
       end, self').
Proof.
  intros Hsel. unfold attempt. rewrite (bind_eq _ _ _ _ _ Hsel).
  unfold bind, lift, ret. destruct (dataset_getitem _ _); reflexivity.
Qed.

Lemma attempt_continue self self' :
  select self = (Ok None, self') → attempt self = (Ok None, self').
Proof. intros Hsel. unfold attempt. rewrite (bind_eq _ _ _ _ _ Hsel). reflexivity. Qed.

Lemma attempt_raise self e self' :
  select self = (Raise e, self') → attempt self = (Raise e, self').
Proof. intros Hsel. unfold attempt, bind. rewrite Hsel. reflexivity. Qed.

(** ** The loop *)

Lemma for_tries_inv tries self a self' :
  for_tries tries self = (Ok a, self') → ∃ sel, returned self self' sel a.
Proof.
  revert self. induction tries as [|i tries' IH]; intros self; simpl.
  - intros Hraise. discriminate Hraise.
  - intros Hloop. apply bind_ok in Hloop as ([a'|] & self1 & Hat & Hloop).
    + injection Hloop as <- <-. apply attempt_inv in Hat as (sel & Hsel & Hget).
      exists sel, self. split; [apply same_config_refl | auto].
    + destruct (IH _ Hloop) as (sel & self0 & Hcfg & Hrest). exists sel, self0.
      split; [|exact Hrest].
      eapply same_config_trans; [|exact Hcfg].
      pose proof (preserves_attempt self) as Hp. rewrite Hat in Hp. exact Hp.
Qed.

Lemma next_inv self a self' :
  __next__ self = (Ok a, self') → ∃ sel, returned self self' sel a.
Proof. apply for_tries_inv. Qed.

Lemma next_first_pass self r self' :
  attempt self = (r, self') →
  __next__ self = (match r with
                   | Ok (Some a) => (Ok a, self')
                   | Ok None => for_tries (seq 1 (pred num_tries)) self'
                   | Raise e => (Raise e, self')
                   end).
Proof.
  intros Hat. change (__next__ self) with
    (bind attempt (fun r => match r with
                            | Some a => ret a
                            | None => for_tries (seq 1 (pred num_tries))
                            end) self).
  unfold bind. rewrite Hat. destruct r as [[a|]|e]; reflexivity.
Qed.

(** ** The shape of what is returned *)

(** C4, as the code has it. When a call returns, then on every dimension
    where the shape is [None] and the position is [None], zero or missing,
    the returned array has the extent that the item chosen on that pass has
    there. *)
Theorem wildcard_dim_is_item_extent self a self' :
  __next__ self = (Ok a, self') →
  ∃ sel, returned self self' sel a ∧
    sel_path sel ∈ h5_items self ∧
    file_dataset (h5 self) (sel_path sel) = Some (next_item sel) ∧
    ∀ j, shape self !! j = Some None →
      pos self !! j = None ∨ pos self !! j = Some None ∨ pos self !! j = Some (Some 0) →
      ∃ have_dim, ds_shape (next_item sel) !! j = Some have_dim ∧
                  nd_shape a !! j = Some have_dim.
Proof.
  intros Hnext. destruct (next_inv _ _ _ Hnext) as (sel & Hret). exists sel.
  split; [exact Hret|]. destruct Hret as (self0 & Hcfg & Hsel & Hget).
  destruct Hcfg as (_ & Hh5 & _ & Hitems & Hshape & Hpos).
  destruct (select_slices _ _ _ Hsel) as [_ Hslices].
  destruct (select_inv _ _ _ Hsel) as (self1 & Hchoice & Hfile & Hwant & _ & _).
  rewrite Hh5 in Hfile. rewrite Hitems in Hchoice. rewrite Hshape in Hwant.
  rewrite Hpos in Hslices.
  split; [exact (choice_inv _ _ _ _ Hchoice)|]. split; [exact Hfile|].
  intros j Hwild Hposj.
  destruct (resolve_shape_lookup _ _ _ _ Hwant) as [_ Hres].
  destruct (Hres j None Hwild) as (w & Hw & have_dim & Hh & ->). simpl in Hh.
  exists have_dim. split; [exact Hh|].
  destruct (sel_slices sel !! j) as [sl|] eqn:Hsl.
  - destruct (Hslices j sl Hsl) as (h' & w' & p & Hh' & Hw' & Hp & Hstop & Hstart).
    rewrite Hh in Hh'. injection Hh' as <-. rewrite Hw in Hw'. injection Hw' as <-.
    rewrite (getitem_shape_sliced _ _ _ _ _ _ Hget Hsl Hh). f_equal.
    assert (slice_start sl = 0) as Hzero.
    { destruct Hposj as [Hnone|[Hnone|Hzero]]; rewrite Hp in *.
      - discriminate Hnone.
      - injection Hnone as ->. lia.
      - injection Hzero as ->. exact Hstart. }
    replace sl with (Slice 0 (0 + Z.of_N have_dim))
      by (destruct sl; simpl in *; congruence).
    rewrite translate_slice_inside by lia. simpl. lia.
  - apply lookup_ge_None in Hsl.
    rewrite (getitem_shape_whole _ _ _ _ Hget Hsl). exact Hh.
Qed.



(** ** Dimensions past the shape *)

Lemma resolve_shape_take j dims item_shape :
  resolve_shape j dims item_shape
  = resolve_shape j dims (take (j + length dims) item_shape).
Proof.
  revert j. induction dims as [|dim dims' IH]; intros j; simpl; [reflexivity|].
  rewrite (lookup_take_lt item_shape (j + S (length dims')) j) by lia.
  rewrite (IH (S j)). replace (S j + length dims')%nat with (j + S (length dims'))%nat by lia.
  reflexivity.
Qed.

Lemma out_of_bounds_take item_shape want :
  out_of_bounds item_shape want = out_of_bounds (take (length want) item_shape) want.
Proof.
  unfold out_of_bounds. revert want.
  induction item_shape as [|h item_shape' IH]; intros want.
  - rewrite take_nil. reflexivity.
  - destruct want as [|w want']; simpl; [reflexivity|]. rewrite <- IH. reflexivity.
Qed.

Lemma choose_slices_take item_shape want poss self :
  choose_slices item_shape want poss self
  = choose_slices (take (length want) item_shape) want poss self.
Proof.
  revert want poss self.
  induction item_shape as [|h item_shape' IH]; intros want poss self.
  - rewrite take_nil. reflexivity.
  - destruct want as [|w want']; [reflexivity|].
    destruct poss as [|p poss']; [reflexivity|].
    simpl. unfold bind.
    destruct ((match p with
               | Some p0 => ret p0
               | None => rng_randint (Z.of_N h - w + 1)
               end) self) as [[start|e] self1]; [|reflexivity].
    rewrite IH. reflexivity.
Qed.

(** C10. The loop looks at an item only on the dimensions the shape has:
    resolving the shape, the bounds check and the choice of the slices give
    the same on the item's shape cut to the length of [self.shape]; and
    when a call returns, the array has, on every dimension from that length
    on, the whole extent of the item chosen. *)
Theorem trailing_dims_kept self :
  let d := length (shape self) in
  (∀ item_shape,
     resolve_shape 0 (shape self) item_shape
     = resolve_shape 0 (shape self) (take d item_shape)) ∧
  (∀ item_shape want self0, length want = d →
     out_of_bounds item_shape want = out_of_bounds (take d item_shape) want ∧
     choose_slices item_shape want (pos self) self0
     = choose_slices (take d item_shape) want (pos self) self0) ∧
  (∀ a self', __next__ self = (Ok a, self') →
     ∃ sel, returned self self' sel a ∧
       (length (sel_slices sel) ≤ d)%nat ∧
       ∀ k, (d ≤ k)%nat → nd_shape a !! k = ds_shape (next_item sel) !! k).
Proof.
  intros d. split; [|split].
  - intros item_shape. apply (resolve_shape_take 0).
  - intros item_shape want self0 <-. split.
    + apply out_of_bounds_take.
    + apply choose_slices_take.
  - intros a self' Hnext. destruct (next_inv _ _ _ Hnext) as (sel & Hret).
    exists sel. split; [exact Hret|]. destruct Hret as (self0 & Hcfg & Hsel & Hget).
    destruct Hcfg as (_ & _ & _ & _ & Hshape & _).
    destruct (select_slices _ _ _ Hsel) as [Hlen _].
    destruct (select_inv _ _ _ Hsel) as (_ & _ & _ & Hwant & _ & _).
    apply resolve_shape_lookup in Hwant as [Hwlen _]. rewrite Hshape in Hwlen.
    assert (length (sel_slices sel) ≤ d)%nat as Hle by (unfold d; lia).
    split; [exact Hle|]. intros k Hk.
    apply (getitem_shape_whole _ _ _ _ Hget). lia.
Qed.

(** ** Calls that return on the first pass *)

Lemma fits_passes self item :
  (∀ k dim, shape self !! k = Some dim →
     ∃ have_dim, ds_shape item !! k = Some have_dim ∧
                 default (Z.of_N have_dim) dim ≤ Z.of_N have_dim) →
  ∃ want, resolve_shape 0 (shape self) (ds_shape item) = Ok want ∧
          out_of_bounds (ds_shape item) want = false.
Proof.
  intros Hfit. destruct (resolve_shape_ok 0 (shape self) (ds_shape item)) as [want Hwant].
  { intros k Hk. destruct (Hfit k None Hk) as (h & Hh & _). simpl. eauto. }
  exists want. split; [exact Hwant|]. apply out_of_bounds_false.
  intros k h w Hh Hw. destruct (resolve_shape_lookup _ _ _ _ Hwant) as [Hlen Hres].
  destruct (lookup_lt_is_Some_2 (shape self) k) as [dim Hdim].
  { apply lookup_lt_Some in Hw. lia. }
  destruct (Hres k dim Hdim) as (w' & Hw' & Hcase).
  rewrite Hw in Hw'. injection Hw' as <-.
  destruct (Hfit k dim Hdim) as (h' & Hh' & Hle).
  rewrite Hh in Hh'. injection Hh' as <-.
  destruct dim as [d|]; simpl in *.
  - subst w. exact Hle.
  - destruct Hcase as (h'' & Hh'' & ->). rewrite Hh in Hh''. injection Hh'' as <-. lia.
Qed.

Lemma first_pass_returns self :
  h5_items self ≠ [] →
  (∀ path, path ∈ h5_items self →
     ∃ item want, file_dataset (h5 self) path = Some item ∧
                  resolve_shape 0 (shape self) (ds_shape item) = Ok want ∧
                  out_of_bounds (ds_shape item) want = false) →
  ∃ sel a self',
    select self = (Ok (Some sel), self') ∧
    dataset_getitem (next_item sel) (sel_slices sel) = Ok a ∧
    __next__ self = (Ok a, self').
Proof.
  intros Hne Hall. destruct (select_ok self Hne Hall) as (sel & self' & Hsel).
  destruct (select_slices _ _ _ Hsel) as [Hlen _].
  destruct (getitem_ok (next_item sel) (sel_slices sel)) as (a & Hget & _); [lia|].
  exists sel, a, self'. split; [exact Hsel|]. split; [exact Hget|].
  pose proof (attempt_of_select _ _ _ Hsel) as Hat. rewrite Hget in Hat.
  rewrite (next_first_pass _ _ _ Hat). reflexivity.
Qed.

Lemma pass_has_slice self sel self' k dim have_dim want_pos :
  select self = (Ok (Some sel), self') →
  shape self !! k = Some dim → ds_shape (next_item sel) !! k = Some have_dim →
  pos self !! k = Some want_pos →
  ∃ sl, sel_slices sel !! k = Some sl ∧
        sel_shape sel !! k = Some (default (Z.of_N have_dim) dim) ∧
        slice_for have_dim (default (Z.of_N have_dim) dim) want_pos sl.
Proof.
  intros Hsel Hdim Hh Hp.
  destruct (select_slices _ _ _ Hsel) as [Hlen Hslices].
  destruct (select_inv _ _ _ Hsel) as (_ & _ & _ & Hwant & _ & _).
  destruct (resolve_shape_lookup _ _ _ _ Hwant) as [Hwlen Hres].
  destruct (Hres k dim Hdim) as (w & Hw & Hcase).
  assert (w = default (Z.of_N have_dim) dim) as ->.
  { destruct dim as [d|]; simpl in *; [exact Hcase|].
    destruct Hcase as (h' & Hh' & ->). rewrite Hh in Hh'. injection Hh' as <-.
    reflexivity. }
  destruct (lookup_lt_is_Some_2 (sel_slices sel) k) as [sl Hsl].
  { apply lookup_lt_Some in Hdim, Hh, Hp. lia. }
  exists sl. split; [exact Hsl|]. split; [exact Hw|].
  destruct (Hslices k sl Hsl) as (h' & w' & p' & Hh' & Hw' & Hp' & Hfor).
  rewrite Hh in Hh'. injection Hh' as <-. rewrite Hw in Hw'. injection Hw' as <-.
  rewrite Hp in Hp'. injection Hp' as <-. exact Hfor.
Qed.

Lemma fitting_dim_extent self sel self' a k dim have_dim want_pos :
  select self = (Ok (Some sel), self') →
  dataset_getitem (next_item sel) (sel_slices sel) = Ok a →
  shape self !! k = Some dim → ds_shape (next_item sel) !! k = Some have_dim →
  pos self !! k = Some want_pos → dim_fits have_dim dim want_pos →
  nd_shape a !! k = Some (Z.to_N (default (Z.of_N have_dim) dim)).
Proof.
  intros Hsel Hget Hdim Hh Hp [Hw Hin].
  destruct (pass_has_slice _ _ _ _ _ _ _ Hsel Hdim Hh Hp) as (sl & Hsl & _ & Hstop & Hstart).
  rewrite (getitem_shape_sliced _ _ _ _ _ _ Hget Hsl Hh). f_equal.
  replace sl with (Slice (slice_start sl) (slice_start sl + default (Z.of_N have_dim) dim))
    by (destruct sl; simpl in *; congruence).
  rewrite translate_slice_inside; [reflexivity | | lia |].
  - destruct want_pos; lia.
  - destruct want_pos; lia.
Qed.

(** C3, as the code has it. Let the shape hold no [None], the list of
    items be non-empty, and every item have as many dimensions as the shape
    and fit on each: the extent wanted is between 0 and the extent the item
    has, and the position there is [None] or an offset that keeps the slice
    inside the item. Then the call returns an array whose shape is the
    shape asked for. *)
Theorem concrete_shape_returned self wants :
  shape self = Some <$> wants →
  h5_items self ≠ [] →
  (∀ path, path ∈ h5_items self →
     ∃ item, file_dataset (h5 self) path = Some item ∧
       length (ds_shape item) = length wants ∧
       ∀ k want_dim, wants !! k = Some want_dim →
         ∃ have_dim want_pos,
           ds_shape item !! k = Some have_dim ∧ pos self !! k = Some want_pos ∧
           dim_fits have_dim (Some want_dim) want_pos) →
  ∃ a self', __next__ self = (Ok a, self') ∧ Z.of_N <$> nd_shape a = wants.
Proof.
  intros Hshape Hne Hall.
  assert (∀ k dim, shape self !! k = Some dim → ∃ w, dim = Some w ∧ wants !! k = Some w)
    as Hconcrete.
  { intros k dim Hk. rewrite Hshape, list_lookup_fmap in Hk.
    destruct (wants !! k) as [w|]; [|discriminate Hk]. injection Hk as <-. eauto. }
  destruct (first_pass_returns self Hne) as (sel & a & self' & Hsel & Hget & Hnext).
  { intros path Hin. destruct (Hall path Hin) as (item & Hfile & _ & Hfit).
    destruct (fits_passes self item) as (want & Hwant & Hb).
    - intros k dim Hk. destruct (Hconcrete k dim Hk) as (w & -> & Hw).
      destruct (Hfit k w Hw) as (h & p & Hh & _ & Hle & _).
      exists h. split; [exact Hh | simpl in *; lia].
    - eauto. }
  exists a, self'. split; [exact Hnext|].
  destruct (select_inv _ _ _ Hsel) as (self1 & Hchoice & Hfile & _).
  destruct (Hall _ (choice_inv _ _ _ _ Hchoice)) as (item & Hfile' & Hrank & Hfit).
  rewrite Hfile in Hfile'. injection Hfile' as <-.
  apply list_eq. intros k. rewrite list_lookup_fmap.
  destruct (wants !! k) as [w|] eqn:Hw.
  - destruct (Hfit k w Hw) as (h & p & Hh & Hp & Hdim).
    assert (shape self !! k = Some (Some w)) as Hk
      by (rewrite Hshape, list_lookup_fmap, Hw; reflexivity).
    rewrite (fitting_dim_extent _ _ _ _ _ _ _ _ Hsel Hget Hk Hh Hp Hdim). simpl.
    destruct Hdim as [Hdim _]. simpl in Hdim. f_equal. lia.
  - apply lookup_ge_None in Hw.
    destruct (select_slices _ _ _ Hsel) as [Hlen _].
    rewrite (getitem_shape_whole _ _ _ _ Hget) by lia.
    rewrite (lookup_ge_None_2 (ds_shape (next_item sel)) k) by lia. reflexivity.
Qed.

(** C7, as the code has it. Let the shape hold 0 on dimension [j], the list
    of items be non-empty, and every item have every dimension of the shape
    and fit on each dimension other than [j]: the resolved extent is within
    the item and the position there is [None] or an offset that keeps the
    slice inside the item. Then the call returns an array of extent 0 on
    [j] and of the resolved extent on every other dimension of the shape,
    and with a position [None] on [j] the start drawn there lies between 0
    and the extent of the item. *)
Theorem zero_extent_returned self j :
  shape self !! j = Some (Some 0) →
  h5_items self ≠ [] →
  (∀ path, path ∈ h5_items self →
     ∃ item, file_dataset (h5 self) path = Some item ∧
       ∀ k dim, shape self !! k = Some dim →
         ∃ have_dim want_pos,
           ds_shape item !! k = Some have_dim ∧ pos self !! k = Some want_pos ∧
           (k ≠ j → dim_fits have_dim dim want_pos)) →
  ∃ sel a self',
    __next__ self = (Ok a, self') ∧ returned self self' sel a ∧
    nd_shape a !! j = Some 0%N ∧
    (∀ k dim have_dim, k ≠ j → shape self !! k = Some dim →
       ds_shape (next_item sel) !! k = Some have_dim →
       nd_shape a !! k = Some (Z.to_N (default (Z.of_N have_dim) dim))) ∧
    (pos self !! j = Some None →
       ∃ sl have_dim,
         sel_slices sel !! j = Some sl ∧ ds_shape (next_item sel) !! j = Some have_dim ∧
         0 ≤ slice_start sl ≤ Z.of_N have_dim ∧ slice_stop sl = slice_start sl).
Proof.
  intros Hzero Hne Hall.
  destruct (first_pass_returns self Hne) as (sel & a & self' & Hsel & Hget & Hnext).
  { intros path Hin. destruct (Hall path Hin) as (item & Hfile & Hfit).
    destruct (fits_passes self item) as (want & Hwant & Hb).
    - intros k dim Hk. destruct (Hfit k dim Hk) as (h & p & Hh & _ & Hdim).
      exists h. split; [exact Hh|]. destruct (decide (k = j)) as [->|Hkj].
      + rewrite Hzero in Hk. injection Hk as <-. simpl. lia.
      + destruct (Hdim Hkj) as [Hle _]. simpl in Hle. lia.
    - eauto. }
  exists sel, a, self'. split; [exact Hnext|]. split.
  { exists self. split; [apply same_config_refl | auto]. }
  destruct (select_inv _ _ _ Hsel) as (self1 & Hchoice & Hfile & _).
  destruct (Hall _ (choice_inv _ _ _ _ Hchoice)) as (item & Hfile' & Hfit).
  rewrite Hfile in Hfile'. injection Hfile' as <-.
  destruct (Hfit j _ Hzero) as (hj & pj & Hhj & Hpj & _).
  destruct (pass_has_slice _ _ _ _ _ _ _ Hsel Hzero Hhj Hpj)
    as (slj & Hslj & _ & Hstop & Hstart). simpl in Hstop, Hstart.
  split; [|split].
  - rewrite (getitem_shape_sliced _ _ _ _ _ _ Hget Hslj Hhj). f_equal.
    apply zero_extent_slice, Hstop.
  - intros k dim h Hkj Hk Hh. destruct (Hfit k dim Hk) as (h' & p & Hh' & Hp & Hdim).
    rewrite Hh in Hh'. injection Hh' as <-.
    exact (fitting_dim_extent _ _ _ _ _ _ _ _ Hsel Hget Hk Hh Hp (Hdim Hkj)).
  - intros Hnone. rewrite Hpj in Hnone. injection Hnone as ->.
    exists slj, hj. split; [exact Hslj|]. split; [exact Hhj|]. simpl in Hstart. lia.
Qed.

(** ** Calls that use up every try *)

Lemma loop_all_continue tries self :
  (∀ self0, same_config self self0 → ∃ self1, attempt self0 = (Ok None, self1)) →
  (for_tries tries self).1 = Raise (ValueError no_slice_msg) ∧
  passes tries self = length tries.
Proof.
  revert self. induction tries as [|i tries' IH]; intros self Hcont; simpl.
  - split; reflexivity.
  - destruct (Hcont self (same_config_refl self)) as [self1 Hat].
    unfold bind. rewrite Hat.
    destruct (IH self1) as [Hres Hcount].
    { intros self0 Hcfg. apply Hcont. eapply same_config_trans; [|exact Hcfg].
      pose proof (preserves_attempt self) as Hp. rewrite Hat in Hp. exact Hp. }
    split; [exact Hres | rewrite Hcount; reflexivity].
Qed.


(** ** Two iterators over the same contents *)

Lemma agree_set_rng self1 self2 g :
  agree self1 self2 → agree (set_rng self1 g) (set_rng self2 g).
Proof. intros (?&?&?&?&?). repeat split; assumption. Qed.

Lemma respects_ret {X} (x : X) : respects (ret x).
Proof. intros self1 self2 Hag. split; [reflexivity | exact Hag]. Qed.

Lemma respects_raise {X} e : respects (raise (X := X) e).
Proof. intros self1 self2 Hag. split; [reflexivity | exact Hag]. Qed.

Lemma respects_lift {X} (r : result X) : respects (lift r).
Proof. intros self1 self2 Hag. split; [reflexivity | exact Hag]. Qed.

Lemma respects_bind {X Y} (m : M X) (k : X → M Y) :
  respects m → (∀ x, respects (k x)) → respects (bind m k).
Proof.
  intros Hm Hk self1 self2 Hag. unfold bind. destruct (Hm _ _ Hag) as [Hres Hag'].
  destruct (m self1) as [[x1|e1] s1], (m self2) as [[x2|e2] s2]; simpl in *;
    try discriminate Hres.
  - injection Hres as <-. apply Hk, Hag'.
  - injection Hres as <-. split; [reflexivity | exact Hag'].
Qed.

Lemma respects_randint high : respects (rng_randint high).
Proof.
  intros self1 self2 Hag. unfold rng_randint.
  destruct (high <=? 0); [split; [reflexivity | exact Hag]|].
  destruct Hag as (Hh5 & Hitems & Hrng & Hrest). rewrite Hrng.
  destruct (bounded_draw (rng self2) high) as [v g]. simpl.
  split; [reflexivity|]. apply agree_set_rng. repeat split; tauto.
Qed.

Lemma respects_choice a : respects (rng_choice a).
Proof.
  intros self1 self2 Hag. unfold rng_choice.
  destruct a as [|x0 a']; [split; [reflexivity | exact Hag]|].
  destruct Hag as (Hh5 & Hitems & Hrng & Hrest). rewrite Hrng.
  destruct (bounded_draw (rng self2) _) as [i g]. simpl.
  split; [reflexivity|]. apply agree_set_rng. repeat split; tauto.
Qed.

Lemma respects_choose_slices item_shape want poss :
  respects (choose_slices item_shape want poss).
Proof.
  revert want poss.
  induction item_shape as [|have_dim item_shape' IH]; intros want poss.
  - apply respects_ret.
  - destruct want as [|want_dim want']; [apply respects_ret|].
    destruct poss as [|want_pos poss']; [apply respects_ret|].
    simpl. apply respects_bind.
    + destruct want_pos; [apply respects_ret | apply respects_randint].
    + intros slice_start. apply respects_bind; [apply IH|].
      intros slices. apply respects_ret.
Qed.

Lemma respects_select : respects select.
Proof.
  intros self1 self2 Hag. unfold select.
  destruct Hag as (Hh5 & Hitems & Hrng & Hshape & Hpos).
  rewrite Hh5, Hitems, Hshape, Hpos.
  apply respects_bind; [apply respects_choice | | repeat split; assumption].
  intros path. apply respects_bind.
  { destruct (file_dataset (h5 self2) path); [apply respects_ret | apply respects_raise]. }
  intros item. apply respects_bind; [apply respects_lift|]. intros want.
  destruct (out_of_bounds (ds_shape item) want); [apply respects_ret|].
  apply respects_bind; [apply respects_choose_slices|].
  intros slices. apply respects_ret.
Qed.

Lemma respects_attempt : respects attempt.
Proof.
  unfold attempt. apply respects_bind; [apply respects_select|].
  intros [sel|]; [|apply respects_ret].
  apply respects_bind; [apply respects_lift|]. intros a. apply respects_ret.
Qed.

Lemma respects_for_tries tries : respects (for_tries tries).
Proof.
  induction tries as [|i tries' IH]; simpl.
  - apply respects_raise.
  - apply respects_bind; [apply respects_attempt|].
    intros [a|]; [apply respects_ret | exact IH].
Qed.

Lemma calls_agree n self1 self2 :
  agree self1 self2 → (calls n self1).1 = (calls n self2).1.
Proof.
  revert self1 self2. induction n as [|n IH]; intros self1 self2 Hag; simpl.
  - reflexivity.
  - destruct (respects_for_tries (seq 0 num_tries) _ _ Hag) as [Hres Hag'].
    fold (__next__ (A := A) (G := G)) in Hres, Hag'.
    destruct (__next__ self1) as [r1 s1], (__next__ self2) as [r2 s2]. simpl in *.
    specialize (IH _ _ Hag').
    destruct (calls n s1) as [rs1 t1], (calls n s2) as [rs2 t2]. simpl in *.
    congruence.
Qed.

(** C8. Two iterators built with the same seed, the same shape and the
    same position over files of the same contents, each called [n] times in
    a row, give the same outcomes call by call: each has a generator of its
    own, seeded when it is built. *)
Theorem same_seed_same_samples fs1 fs2 path1 path2 f dims poss seed self1 self2 n :
  fs1 path1 = Some f → fs2 path2 = Some f →
  __init__ fs1 path1 dims poss seed = Ok self1 →
  __init__ fs2 path2 dims poss seed = Ok self2 →
  rng self1 = RandomState seed ∧ rng self2 = RandomState seed ∧
  (calls n self1).1 = (calls n self2).1.
Proof.
  unfold __init__. intros -> ->.
  destruct (collect_items f f.*1 []) as [items|e]; simpl; [|discriminate].
  intros [= <-] [= <-]. split; [reflexivity|]. split; [reflexivity|].
  apply calls_agree. repeat split.
Qed.

(** * Further properties of the module *)

(** ** What [__init__] raises and lists *)







(** X2. Every path in the list of items that [__init__] builds names a
    dataset of the file it opened, and the groups it records are the keys of
    that file: line 49 finds an item for whatever path is drawn. *)
Theorem init_items_are_datasets
    (fs : string → option (File (A := A))) path dims poss seed self :
  __init__ (G := G) fs path dims poss seed = Ok self →
  fs path = Some (h5 self) ∧ h5_groups self = (h5 self).*1 ∧
  ∀ p, p ∈ h5_items self → ∃ item, file_dataset (h5 self) p = Some item.
Proof.
  intros Hinit. pose proof (init_items_resolve _ _ _ _ _ _ Hinit) as Hres.
  unfold __init__ in Hinit. destruct (fs path) as [f|]; [|discriminate].
  destruct (collect_items f f.*1 []) as [items|e]; simpl in Hinit; [|discriminate].
  injection Hinit as <-. simpl in *. repeat split. exact Hres.
Qed.


(** ** Resolving the shape *)

Lemma resolve_shape_raise j dims item_shape e :
  resolve_shape j dims item_shape = Raise e →
  e = IndexError "tuple index out of range" ∧
  ∃ k, dims !! k = Some None ∧ (length item_shape ≤ j + k)%nat.
Proof.
  revert j. induction dims as [|dim dims' IH]; intros j; simpl; [discriminate|].
  destruct dim as [d|]; simpl.
  - destruct (resolve_shape (S j) dims' item_shape) as [ds|e'] eqn:Htail; simpl;
      [discriminate|].
    intros [= <-]. destruct (IH _ Htail) as (-> & k & Hk & Hlen).
    split; [reflexivity|]. exists (S k). split; [exact Hk | lia].
  - destruct (item_shape !! j) as [h|] eqn:Hh; simpl.
    + destruct (resolve_shape (S j) dims' item_shape) as [ds|e'] eqn:Htail; simpl;
        [discriminate|].
      intros [= <-]. destruct (IH _ Htail) as (-> & k & Hk & Hlen).
      split; [reflexivity|]. exists (S k). split; [exact Hk | lia].
    + intros [= <-]. split; [reflexivity|]. exists 0%nat. split; [reflexivity|].
      apply lookup_ge_None in Hh. lia.
Qed.

(** X4. Lines 53-56 succeed exactly when the item has every dimension on
    which [self.shape] is [None]; otherwise they raise [IndexError]. Where
    they succeed the resolved shape has the length of [self.shape], keeps
    its integers and holds the item's extent in place of each [None]. *)
Theorem resolve_shape_ok_iff dims item_shape :
  ((∃ want, resolve_shape 0 dims item_shape = Ok want) ↔
   (∀ k, dims !! k = Some None → (k < length item_shape)%nat)) ∧
  (∀ e, resolve_shape 0 dims item_shape = Raise e →
        e = IndexError "tuple index out of range") ∧
  (∀ want, resolve_shape 0 dims item_shape = Ok want →
     length want = length dims ∧
     ∀ k, want !! k
          = (dim ← dims !! k;
             match dim with
             | Some d => Some d
             | None => Z.of_N <$> item_shape !! k
             end)).
Proof.
  split; [split|split].
  - intros [want Hwant] k Hk.
    destruct (resolve_shape_lookup _ _ _ _ Hwant) as [_ Hres].
    destruct (Hres k None Hk) as (w & _ & h & Hh & _). simpl in Hh.
    apply lookup_lt_Some in Hh. exact Hh.
  - intros Hwild. apply resolve_shape_ok. intros k Hk. simpl.
    apply lookup_lt_is_Some_2, Hwild, Hk.
  - intros e Hraise. apply (resolve_shape_raise _ _ _ _ Hraise).
  - intros want Hwant. destruct (resolve_shape_lookup _ _ _ _ Hwant) as [Hlen Hres].
    split; [exact Hlen|]. intros k.
    destruct (dims !! k) as [dim|] eqn:Hk; simpl.
    + destruct (Hres k dim Hk) as (w & Hw & Hcase). rewrite Hw.
      destruct dim as [d|]; [congruence|].
      destruct Hcase as (h & Hh & ->). simpl in Hh. rewrite Hh. reflexivity.
    + apply lookup_ge_None. apply lookup_ge_None in Hk. lia.
Qed.

(** ** What a call can raise *)

Lemma bind_raise {X Y} (m : M X) (k : X → M Y) self e self' :
  bind m k self = (Raise e, self') →
  m self = (Raise e, self') ∨
  ∃ x self1, m self = (Ok x, self1) ∧ k x self1 = (Raise e, self').
Proof.
  unfold bind. destruct (m self) as [[x|e0] self1]; intros Heq.
  - right. eauto.
  - left. injection Heq as <- <-. reflexivity.
Qed.

Lemma choice_state a self x self1 :
  rng_choice a self = (Ok x, self1) →
  self1 = set_rng self (item_draw (length a) (rng self)).
Proof.
  unfold rng_choice, item_draw. destruct a as [|x0 a']; [discriminate|].
  destruct (bounded_draw (rng self) _) as [i g]. intros [= _ <-]. reflexivity.
Qed.

Lemma choice_raise a self e self1 :
  rng_choice a self = (Raise e, self1) →
  a = [] ∧ e = ValueError "a must be non-empty".
Proof.
  unfold rng_choice. destruct a as [|x0 a'].
  - intros [= <- _]. split; reflexivity.
  - destruct (bounded_draw (rng self) _) as [i g]. discriminate.
Qed.

Lemma select_raise_inv self e self' :
  select self = (Raise e, self') → pass_error self e.
Proof.
  unfold select. intros Hsel.
  apply bind_raise in Hsel as [Hchoice|(path & self1 & Hchoice & Hsel)].
  { apply choice_raise in Hchoice as [Hnil ->]. left. split; [exact Hnil | reflexivity]. }
  pose proof (choice_inv _ _ _ _ Hchoice) as Hin.
  apply bind_raise in Hsel as [Hfile|(item & self2 & Hfile & Hsel)].
  { destruct (file_dataset (h5 self) path) eqn:Hf; [discriminate Hfile|].
    injection Hfile as <- _. right. left. exists path. auto. }
  destruct (file_dataset (h5 self) path) as [item'|] eqn:Hf; [|discriminate Hfile].
  injection Hfile as -> <-.
  apply bind_raise in Hsel as [Hwant|(want & self3 & Hwant & Hsel)].
  { injection Hwant as Hwant _.
    destruct (resolve_shape_raise _ _ _ _ Hwant) as (-> & k & Hk & Hlen).
    right. right. exists path, item, k. simpl in Hlen. auto. }
  injection Hwant as Hwant <-.
  destruct (out_of_bounds (ds_shape item) want) eqn:Hfit; [discriminate Hsel|].
  apply bind_raise in Hsel as [Hslices|(slices & self4 & _ & Hsel)]; [|discriminate Hsel].
  destruct (choose_slices_ok _ _ (pos self) self1 Hfit) as (slices & self4 & Heq & _).
  rewrite Heq in Hslices. discriminate Hslices.
Qed.

Lemma attempt_raise_inv self e self' :
  attempt self = (Raise e, self') → select self = (Raise e, self').
Proof.
  unfold attempt. intros Hat.
  apply bind_raise in Hat as [Hsel|([sel|] & self1 & Hsel & Hat)];
    [exact Hsel | | discriminate Hat].
  destruct (select_slices _ _ _ Hsel) as [Hlen _].
  destruct (getitem_ok (next_item sel) (sel_slices sel)) as (a & Hget & _); [lia|].
  unfold bind, lift in Hat. rewrite Hget in Hat. discriminate Hat.
Qed.

Lemma pass_error_config self self0 e :
  same_config self self0 → pass_error self0 e → pass_error self e.
Proof.
  intros (_ & Hh5 & _ & Hitems & Hshape & _). unfold pass_error.
  rewrite Hh5, Hitems, Hshape. exact id.
Qed.

Lemma for_tries_raise_inv tries self e self' :
  for_tries tries self = (Raise e, self') →
  e = ValueError no_slice_msg ∨ pass_error self e.
Proof.
  revert self. induction tries as [|i tries' IH]; intros self; simpl.
  - intros [= <- _]. left. reflexivity.
  - intros Hloop. apply bind_raise in Hloop as [Hat|([a|] & self1 & Hat & Hloop)].
    + right. apply select_raise_inv with (self' := self'). apply attempt_raise_inv, Hat.
    + discriminate Hloop.
    + destruct (IH _ Hloop) as [He|Hpass]; [left; exact He|]. right.
      apply (pass_error_config self self1); [|exact Hpass].
      pose proof (preserves_attempt self) as Hp. rewrite Hat in Hp. exact Hp.
Qed.


Lemma calls_same_config n self : same_config self (calls n self).2.
Proof.
  revert self. induction n as [|n IH]; intros self; simpl.
  - apply same_config_refl.
  - pose proof (preserves_for_tries (seq 0 num_tries) self) as Hp.
    fold (__next__ (A := A) (G := G)) in Hp.
    destruct (__next__ self) as [r self1]. specialize (IH self1).
    destruct (calls n self1) as [rs self2]. simpl in *.
    eapply same_config_trans; [exact Hp | exact IH].
Qed.

(** X6. An iterator built by [__init__] never raises [KeyError], at the
    first call or after any number of calls: every path it draws names a
    dataset of its file. *)
Theorem built_iterator_never_key_error
    (fs : string → option (File (A := A))) path dims poss seed self0 n e self' :
  __init__ fs path dims poss seed = Ok self0 →
  __next__ (calls n self0).2 = (Raise e, self') →
  ∀ p, e ≠ KeyError p.
Proof.
  intros Hinit Hnext p ->.
  pose proof (calls_same_config n self0) as Hcfg.
  destruct (for_tries_raise_inv _ _ _ _ Hnext) as [He|Hpass]; [discriminate He|].
  apply (pass_error_config self0) in Hpass; [|exact Hcfg].
  destruct Hpass as [[_ He]|[(q & Hin & Hnone & He)|(q & item & k & _ & _ & _ & _ & He)]];
    try discriminate He.
  destruct (init_items_resolve _ _ _ _ _ _ Hinit q Hin) as [item Hsome].
  rewrite Hsome in Hnone. discriminate Hnone.
Qed.

(** ** What is returned, whatever the position *)

Lemma adjust_index_range i len : 0 ≤ len → 0 ≤ adjust_index i len ≤ len.
Proof. intros Hlen. unfold adjust_index. destruct (Z.ltb_spec i 0); lia. Qed.

Lemma translate_slice_le sl have_dim :
  ((translate_slice sl have_dim).2 ≤ have_dim)%N.
Proof.
  unfold translate_slice. simpl.
  pose proof (adjust_index_range (slice_start sl) (Z.of_N have_dim)).
  pose proof (adjust_index_range (slice_stop sl) (Z.of_N have_dim)). lia.
Qed.

(** X7. An array that a call returns has as many dimensions as the item it
    was read from, and on no dimension more than the item has there,
    whatever the shape and the position ask for. *)
Theorem sample_within_item self a self' :
  __next__ self = (Ok a, self') →
  ∃ sel, returned self self' sel a ∧
    length (nd_shape a) = length (ds_shape (next_item sel)) ∧
    ∀ k n have_dim,
      nd_shape a !! k = Some n → ds_shape (next_item sel) !! k = Some have_dim →
      (n ≤ have_dim)%N.
Proof.
  intros Hnext. destruct (next_inv _ _ _ Hnext) as (sel & Hret). exists sel.
  split; [exact Hret|]. destruct Hret as (self0 & _ & Hsel & Hget).
  destruct (select_slices _ _ _ Hsel) as [Hlen _].
  destruct (getitem_ok (next_item sel) (sel_slices sel)) as (a' & Hget' & Hshape); [lia|].
  rewrite Hget in Hget'. injection Hget' as <-. split.
  - rewrite Hshape, length_app, length_fmap, length_zip_with, length_drop. lia.
  - intros k n h Hn Hh. destruct (sel_slices sel !! k) as [sl|] eqn:Hsl.
    + rewrite (getitem_shape_sliced _ _ _ _ _ _ Hget Hsl Hh) in Hn.
      injection Hn as <-. apply translate_slice_le.
    + apply lookup_ge_None in Hsl.
      rewrite (getitem_shape_whole _ _ _ _ Hget Hsl), Hh in Hn.
      injection Hn as <-. lia.
Qed.

(** X8. With a position that is [None] everywhere, an array that a call
    returns has exactly the extent asked for on every dimension where the
    shape holds an integer that is not negative and both the item and the
    position have that dimension; and that extent is no more than the item
    has, since the pass that returned passed the bounds check. This holds
    also over items of different shapes, some of which do not fit. *)
Theorem wildcard_pos_exact_extent self a self' :
  Forall (λ want_pos, want_pos = None) (pos self) →
  __next__ self = (Ok a, self') →
  ∃ sel, returned self self' sel a ∧
    ∀ k want_dim have_dim,
      shape self !! k = Some (Some want_dim) → 0 ≤ want_dim →
      (k < length (pos self))%nat →
      ds_shape (next_item sel) !! k = Some have_dim →
      want_dim ≤ Z.of_N have_dim ∧ nd_shape a !! k = Some (Z.to_N want_dim).
Proof.
  intros Hwild Hnext. destruct (next_inv _ _ _ Hnext) as (sel & Hret). exists sel.
  split; [exact Hret|]. destruct Hret as (self0 & Hcfg & Hsel & Hget).
  destruct Hcfg as (_ & _ & _ & _ & Hshape & Hpos).
  intros k w h Hk Hw Hlt Hh.
  destruct (lookup_lt_is_Some_2 (pos self) k Hlt) as [p Hp].
  assert (p = None) as -> by (rewrite Forall_lookup in Hwild; exact (Hwild k p Hp)).
  rewrite <- Hshape in Hk. rewrite <- Hpos in Hp.
  destruct (pass_has_slice _ _ _ _ _ _ _ Hsel Hk Hh Hp) as (sl & Hsl & Hwant & Hstop & Hstart).
  simpl in *.
  destruct (select_inv _ _ _ Hsel) as (_ & _ & _ & _ & Hfit & _).
  pose proof (proj1 (out_of_bounds_false _ _) Hfit k h w Hh Hwant) as Hle.
  split; [exact Hle|].
  apply (fitting_dim_extent _ _ _ _ _ _ _ _ Hsel Hget Hk Hh Hp).
  split; simpl; [lia | exact I].
Qed.

(** ** Calls that end in the error of line 74 *)

Lemma continue_pass_one_draw self self1 :
  attempt self = (Ok None, self1) →
  self1 = set_rng self (item_draw (length (h5_items self)) (rng self)) ∧
  h5_items self ≠ [].
Proof.
  unfold attempt. intros Hat.
  apply bind_ok in Hat as ([sel|] & self2 & Hsel & Hat).
  { apply bind_ok in Hat as (a & self3 & _ & Hat). discriminate Hat. }
  injection Hat as <-. unfold select in Hsel.
  apply bind_ok in Hsel as (path & self3 & Hchoice & Hsel).
  assert (h5_items self ≠ []) as Hne.
  { intros Hnil. apply choice_inv in Hchoice. rewrite Hnil in Hchoice.
    inversion Hchoice. }
  split; [|exact Hne].
  apply choice_state in Hchoice as ->.
  apply bind_ok in Hsel as (item & self4 & Hfile & Hsel).
  destruct (file_dataset (h5 self) path); [|discriminate Hfile]. injection Hfile as _ <-.
  apply bind_ok in Hsel as (want & self5 & Hwant & Hsel). injection Hwant as _ <-.
  destruct (out_of_bounds (ds_shape item) want).
  - injection Hsel as <-. reflexivity.
  - apply bind_ok in Hsel as (slices & self6 & _ & Hsel). discriminate Hsel.
Qed.

Lemma pass_error_not_exhaustion self : ¬ pass_error self (ValueError no_slice_msg).
Proof.
  intros [[_ He]|[(q & _ & _ & He)|(q & item & k & _ & _ & _ & _ & He)]];
    discriminate He.
Qed.

Lemma for_tries_exhausted tries self self' :
  for_tries tries self = (Raise (ValueError no_slice_msg), self') →
  passes tries self = length tries ∧
  rng self' = Nat.iter (length tries) (item_draw (length (h5_items self))) (rng self) ∧
  (tries ≠ [] → h5_items self ≠ []).
Proof.
  revert self. induction tries as [|i tries' IH]; intros self; simpl.
  - intros [= <-]. repeat split. congruence.
  - intros Hloop. apply bind_raise in Hloop as [Hat|([a|] & self1 & Hat & Hloop)].
    + apply attempt_raise_inv, select_raise_inv in Hat.
      destruct (pass_error_not_exhaustion _ Hat).
    + discriminate Hloop.
    + rewrite Hat. destruct (IH _ Hloop) as (Hcount & Hrng & _).
      destruct (continue_pass_one_draw _ _ Hat) as [-> Hne]. simpl in *.
      split; [rewrite Hcount; reflexivity|]. split.
      * rewrite Hrng, <- Nat.iter_succ_r. reflexivity.
      * intros _. exact Hne.
Qed.

(** X9. A call that ends in the [ValueError] of line 74 has run all 500
    passes, each ending at the bounds check, and has drawn from the
    generator exactly 500 times, once per pass for the item: the state of
    the generator after the call is that of 500 draws of an item. The list
    of items is then not empty. *)
Theorem exhausted_call_drew_500 self self' :
  __next__ self = (Raise (ValueError no_slice_msg), self') →
  passes (seq 0 num_tries) self = 500%nat ∧
  rng self' = Nat.iter 500 (item_draw (length (h5_items self))) (rng self) ∧
  h5_items self ≠ [].
Proof.
  intros Hnext. destruct (for_tries_exhausted _ _ _ Hnext) as (Hcount & Hrng & Hne).
  rewrite length_seq in Hcount, Hrng. split; [exact Hcount|]. split; [exact Hrng|].
  apply Hne. discriminate.
Qed.

(** ** Calls in a row and the [for] loop *)

Lemma every_item_passes_config self self0 :
  same_config self self0 → every_item_passes self → every_item_passes self0.
Proof.
  intros (_ & Hh5 & _ & Hitems & Hshape & _). unfold every_item_passes.
  rewrite Hh5, Hitems, Hshape. exact id.
Qed.

Lemma some_dim_too_big_config self self0 :
  same_config self self0 → some_dim_too_big self → some_dim_too_big self0.
Proof.
  intros (_ & Hh5 & _ & Hitems & Hshape & _). unfold some_dim_too_big.
  rewrite Hh5, Hitems, Hshape. exact id.
Qed.

Lemma passing_call_returns self :
  every_item_passes self →
  ∃ sel a self',
    select self = (Ok (Some sel), self') ∧
    dataset_getitem (next_item sel) (sel_slices sel) = Ok a ∧
    __next__ self = (Ok a, self').
Proof.
  intros [Hne Hall]. apply (first_pass_returns self Hne).
  intros path Hin. destruct (Hall path Hin) as (item & Hfile & Hfit).
  destruct (fits_passes self item Hfit) as (want & Hwant & Hb). eauto.
Qed.

Lemma too_big_pass_continues self :
  some_dim_too_big self → ∃ self1, attempt self = (Ok None, self1).
Proof.
  intros (Hne & j & want_dim & Hbig & Hall).
  destruct (choice_ok (h5_items self) self Hne) as (path & g & Hchoice & Hin).
  destruct (Hall path Hin) as (item & h & Hfile & Hh & Hlt & Hwild).
  destruct (resolve_shape_ok 0 (shape self) (ds_shape item)) as [want Hwant].
  { intros k Hk. apply lookup_lt_is_Some_2. simpl. apply Hwild, Hk. }
  exists (set_rng self g). apply attempt_continue.
  apply (select_continue _ _ _ _ _ Hchoice Hfile Hwant).
  destruct (resolve_shape_lookup _ _ _ _ Hwant) as [_ Hres].
  destruct (Hres j _ Hbig) as (w & Hw & ->).
  exact (out_of_bounds_true _ _ _ _ _ Hh Hw Hlt).
Qed.

Lemma too_big_call_exhausts self :
  some_dim_too_big self → (__next__ self).1 = Raise (ValueError no_slice_msg).
Proof.
  intros Hbig. apply (loop_all_continue (seq 0 num_tries) self).
  intros self0 Hcfg. apply too_big_pass_continues.
  exact (some_dim_too_big_config _ _ Hcfg Hbig).
Qed.

(** X10. When the shape is too big for every item on some dimension, the
    failure is lasting: each of any number of calls in a row raises the
    [ValueError] of line 74, and a [for] loop over the iterator ends at its
    first turn with that error, its body never run. *)
Theorem too_big_every_call_fails self n fuel :
  some_dim_too_big self →
  (calls n self).1 = replicate n (Raise (ValueError no_slice_msg)) ∧
  (for_each (S fuel) self).1 = ([], Some (ValueError no_slice_msg)).
Proof.
  intros Hbig. split.
  - revert self Hbig. induction n as [|n IH]; intros self Hbig; simpl; [reflexivity|].
    pose proof (too_big_call_exhausts self Hbig) as Hres.
    pose proof (preserves_for_tries (seq 0 num_tries) self) as Hcfg.
    fold (__next__ (A := A) (G := G)) in Hcfg.
    destruct (__next__ self) as [r self1]. simpl in Hres, Hcfg. subst r.
    specialize (IH self1 (some_dim_too_big_config _ _ Hcfg Hbig)).
    destruct (calls n self1) as [rs self2]. simpl in *. rewrite IH. reflexivity.
  - unfold for_each, __iter__. simpl.
    pose proof (too_big_call_exhausts self Hbig) as Hres.
    destruct (__next__ self) as [r self1]. simpl in Hres. subst r. reflexivity.
Qed.

Lemma passing_turns fuel self :
  every_item_passes self →
  ∃ seen it, for_turns fuel self = (seen, None, it) ∧ length seen = fuel ∧
             same_config self it.
Proof.
  revert self. induction fuel as [|fuel IH]; intros self Hpass; simpl.
  - exists [], self. repeat split.
  - destruct (passing_call_returns self Hpass) as (sel & a & self1 & _ & _ & Hnext).
    rewrite Hnext.
    pose proof (preserves_for_tries (seq 0 num_tries) self) as Hcfg.
    fold (__next__ (A := A) (G := G)) in Hcfg. rewrite Hnext in Hcfg. simpl in Hcfg.
    destruct (IH self1 (every_item_passes_config _ _ Hcfg Hpass))
      as (seen & it & Hturns & Hlen & Hcfg').
    rewrite Hturns. exists (a :: seen), it. split; [reflexivity|].
    split; [simpl; lia|]. eapply same_config_trans; [exact Hcfg | exact Hcfg'].
Qed.


(** ** The self-test *)

Lemma main_init (values : nat → nat → list Z → A) dims :
  __init__ (main_fs values) "._test.h5" dims None default_seed
  = Ok (main_iterator values dims).
Proof. reflexivity. Qed.

Lemma main_items_shape (values : nat → nat → list Z → A) path item :
  file_dataset (main_file values) path = Some item → ds_shape item = [15%N; 20%N].
Proof.
  intros Hfile. apply assoc_Some_elem in Hfile. unfold file_datasets in Hfile.
  apply list_elem_of_bind in Hfile as (g & Hitem & Hg).
  apply list_elem_of_fmap in Hg as (ik & -> & _).
  cbn [snd fst] in Hitem. unfold main_group in Hitem.
  rewrite <- list_fmap_compose in Hitem.
  apply list_elem_of_fmap in Hitem as (j & Heq & _). simpl in Heq.
  injection Heq as _ ->. reflexivity.
Qed.

Lemma main_items_listed (values : nat → nat → list Z → A) dims path :
  path ∈ h5_items (main_iterator values dims) →
  ∃ item, file_dataset (main_file values) path = Some item ∧
          ds_shape item = [15%N; 20%N].
Proof.
  intros Hin. destruct (assoc_is_Some path (file_datasets (main_file values)) Hin)
    as [item Hitem].
  exists item. split; [exact Hitem|]. exact (main_items_shape _ _ _ Hitem).
Qed.

Lemma main_next_shape (values : nat → nat → list Z → A) d0 d1 :
  0 ≤ default 15 d0 ≤ 15 → 0 ≤ default 20 d1 ≤ 20 →
  every_item_passes (main_iterator values [d0; d1]) ∧
  ∃ a self', __next__ (main_iterator values [d0; d1]) = (Ok a, self') ∧
             nd_shape a = [Z.to_N (default 15 d0); Z.to_N (default 20 d1)].
Proof.
  intros H0 H1.
  assert (every_item_passes (main_iterator values [d0; d1])) as Hpass.
  { split; [discriminate|]. intros path Hin.
    destruct (main_items_listed values _ path Hin) as (item & Hfile & Hshape).
    exists item. split; [exact Hfile|]. rewrite Hshape.
    intros [|[|k]] dim Hk; simpl in Hk; try discriminate Hk; injection Hk as <-.
    - exists 15%N. split; [reflexivity | simpl in *; lia].
    - exists 20%N. split; [reflexivity | simpl in *; lia]. }
  split; [exact Hpass|].
  destruct (passing_call_returns _ Hpass) as (sel & a & self' & Hsel & Hget & Hnext).
  exists a, self'. split; [exact Hnext|].
  destruct (select_inv _ _ _ Hsel) as (self1 & _ & Hfile & _).
  pose proof (main_items_shape _ _ _ Hfile) as Hshape.
  destruct (select_slices _ _ _ Hsel) as [Hlen _].
  destruct (select_inv _ _ _ Hsel) as (_ & _ & _ & Hwant & _ & _).
  apply resolve_shape_lookup in Hwant as [Hwlen _].
  rewrite Hshape, Hwlen in Hlen. simpl in Hlen.
  apply list_eq. intros [|[|k]].
  - rewrite (fitting_dim_extent _ _ _ _ 0%nat d0 15%N None Hsel Hget);
      [reflexivity | reflexivity | rewrite Hshape; reflexivity | reflexivity |].
    split; [exact H0 | exact I].
  - rewrite (fitting_dim_extent _ _ _ _ 1%nat d1 20%N None Hsel Hget);
      [reflexivity | reflexivity | rewrite Hshape; reflexivity | reflexivity |].
    split; [exact H1 | exact I].
  - rewrite (getitem_shape_whole _ _ _ _ Hget) by (rewrite Hlen; lia).
    rewrite Hshape. reflexivity.
Qed.

Lemma check_shape_passes (values : nat → nat → list Z → A) d0 d1 line rest :
  0 ≤ default 15 d0 ≤ 15 → 0 ≤ default 20 d1 ≤ 20 →
  check_shape (G := G) values [d0; d1]
    [Z.to_N (default 15 d0); Z.to_N (default 20 d1)] line rest = rest.
Proof.
  intros H0 H1. unfold check_shape. rewrite main_init.
  destruct (main_next_shape values d0 d1 H0 H1) as (_ & a & self' & Hnext & Hshape).
  rewrite Hnext. cbn [fst]. rewrite Hshape, bool_decide_eq_true_2; reflexivity.
Qed.

Lemma main_too_big (values : nat → nat → list Z → A) :
  some_dim_too_big (main_iterator values [Some 100; Some 100]).
Proof.
  split; [discriminate|]. exists 0%nat, 100. split; [reflexivity|].
  intros path Hin. destruct (main_items_listed values _ path Hin) as (item & Hfile & Hshape).
  exists item, 15%N. split; [exact Hfile|]. rewrite Hshape.
  split; [reflexivity|]. split; [lia|].
  intros [|[|k]] Hk; discriminate Hk.
Qed.

(** X12. The checks of the self-test pass whatever the generator draws and
    whatever values the file holds: the four shapes come out as asserted
    and the shape (100, 100) ends in the [ValueError] that the test
    expects. The loop that closes the self-test, over the last iterator
    after its first call, then runs without end: at any number of turns
    it has printed that many arrays and met no exception. *)
Theorem main_checks_pass (values : nat → nat → list Z → A) :
  main_checks (G := G) values = Passed ∧
  ∀ h a h' fuel,
    __init__ (G := G) (main_fs values) "._test.h5" [Some 2; Some 5] None default_seed
      = Ok h →
    __next__ h = (Ok a, h') →
    ∃ seen it, for_each fuel h' = (seen, None, it) ∧ length seen = fuel.
Proof.
  split.
  - unfold main_checks.
    rewrite (check_shape_passes values (Some 2) None) by (simpl; lia).
    rewrite (check_shape_passes values (Some 0) None) by (simpl; lia).
    rewrite (check_shape_passes values None None) by (simpl; lia).
    unfold check_too_big. rewrite main_init.
    rewrite (too_big_call_exhausts _ (main_too_big values)).
    apply (check_shape_passes values (Some 2) (Some 5)); simpl; lia.
  - intros h a h' fuel Hinit Hnext. rewrite main_init in Hinit. injection Hinit as <-.
    destruct (main_next_shape values (Some 2) (Some 5)) as [Hpass _]; [simpl; lia..|].
    pose proof (preserves_for_tries (seq 0 num_tries) (main_iterator values [Some 2; Some 5]))
      as Hcfg.
    fold (__next__ (A := A) (G := G)) in Hcfg. rewrite Hnext in Hcfg. simpl in Hcfg.
    destruct (passing_turns fuel h' (every_item_passes_config _ _ Hcfg Hpass))
      as (seen & it & Hturns & Hlen & _).
    exists seen, it. split; [exact Hturns | exact Hlen].
Qed.

End Properties.

(** * The self-test of the module and other runs *)

Example init_test_file dims poss :
  __init__ test_fs "._test.h5" dims (Some poss) default_seed
  = Ok (iterator_over test_file dims poss).
Proof. reflexivity. Qed.

Example self_test_2_None : test_next [Some 2; None] None = Ok [2; 20]%N.
Proof. vm_compute. reflexivity. Qed.

Example self_test_0_None : test_next [Some 0; None] None = Ok [0; 20]%N.
Proof. vm_compute. reflexivity. Qed.

Example self_test_None_None : test_next [None; None] None = Ok [15; 20]%N.
Proof. vm_compute. reflexivity. Qed.

Example self_test_100_100 :
  test_next [Some 100; Some 100] None = Raise (ValueError no_slice_msg).
Proof. vm_compute. reflexivity. Qed.

Example self_test_2_5 : test_next [Some 2; Some 5] None = Ok [2; 5]%N.
Proof. vm_compute. reflexivity. Qed.

Lemma test_items_resolve path :
  path ∈ (file_datasets test_file).*1 → file_dataset test_file path = Some test_dataset.
Proof.
  revert path. apply Forall_forall. vm_compute.
  repeat (apply Forall_cons; split; [reflexivity|]). apply Forall_nil. exact I.
Qed.

Lemma test_items_nonempty dims poss : h5_items (iterator_over test_file dims poss) ≠ [].
Proof. discriminate. Qed.

(** ** C1 *)



(** ** C2 *)



(** ** C3 *)

(** C3 does not hold as stated. Every item of the test file has shape
    (15, 20). The shape (2, 5) has no [None] and fits every item; with the
    position (14, None) the slice 14:16 is cut at the end of the item and
    the array returned has shape (1, 5). The shape (2,) has no [None] and
    fits every item as well; the array returned keeps the second dimension
    of the item and has shape (2, 20). *)
Lemma concrete_shape_not_returned :
  let cut := iterator_over test_file [Some 2; Some 5] [Some 14; None] in
  let short := iterator_over test_file [Some 2] [None] in
  (∃ a self', __next__ cut = (Ok a, self') ∧ nd_shape a = [1; 5]%N ∧
              Z.of_N <$> nd_shape a ≠ [2; 5]) ∧
  (∃ a self', __next__ short = (Ok a, self') ∧ nd_shape a = [2; 20]%N ∧
              Z.of_N <$> nd_shape a ≠ [2]).
Proof.
  intros cut short. split; eexists _, _.
  - split; [reflexivity|]. split; [reflexivity | discriminate].
  - split; [reflexivity|]. split; [reflexivity | discriminate].
Qed.

Lemma test_dims_fit (dims poss : list (option Z)) :
  Forall3 (dim_fits) [15%N; 20%N] dims poss →
  ∀ path, path ∈ h5_items (iterator_over test_file dims poss) →
    ∃ item, file_dataset test_file path = Some item ∧
      length (ds_shape item) = length dims ∧
      ∀ k dim, dims !! k = Some dim →
        ∃ have_dim want_pos,
          ds_shape item !! k = Some have_dim ∧ poss !! k = Some want_pos ∧
          dim_fits have_dim dim want_pos.
Proof.
  intros Hfit path Hin. exists test_dataset.
  split; [exact (test_items_resolve path Hin)|].
  split; [exact (Forall3_length_lm _ _ _ _ Hfit)|].
  intros k dim Hk.
  destruct (Forall3_lookup_m _ _ _ _ _ _ Hfit Hk) as (h & p & Hh & Hp & Hdim).
  exists h, p. auto.
Qed.

Lemma concrete_shape_returned_witness :
  let self := iterator_over test_file [Some 2; Some 5] [Some 13; None] in
  ∃ a self', __next__ self = (Ok a, self') ∧ Z.of_N <$> nd_shape a = [2; 5].
Proof.
  intros self. apply (concrete_shape_returned self [2; 5]).
  - reflexivity.
  - apply test_items_nonempty.
  - intros path Hin.
    destruct (test_dims_fit [Some 2; Some 5] [Some 13; None]) with (path := path)
      as (item & Hfile & Hrank & Hfit); [|exact Hin|].
    { repeat constructor; simpl; lia. }
    exists item. split; [exact Hfile|]. split; [exact Hrank|].
    intros k w Hk. apply (Hfit k (Some w)).
    destruct k as [|[|[|k]]]; simpl in *; congruence.
Defined.

(** ** C4 *)

(** C4 does not hold as stated. With the shape (None, 5) and the position
    (3, None) the call returns an array of extent 12 on dimension 0, where
    the shape is [None] and the item chosen has extent 15: the slice 3:18 is
    cut at the end of the item. *)
Lemma wildcard_dim_cut_short :
  let self := iterator_over test_file [None; Some 5] [Some 3; None] in
  ∃ sel a self',
    __next__ self = (Ok a, self') ∧ returned self self' sel a ∧
    shape self !! 0%nat = Some None ∧
    ds_shape (next_item sel) !! 0%nat = Some 15%N ∧
    nd_shape a !! 0%nat = Some 12%N.
Proof.
  intros self. eexists _, _, _. split; [reflexivity|]. split.
  { exists self. split; [apply same_config_refl|]. split; reflexivity. }
  repeat split.
Qed.

Lemma wildcard_dim_is_item_extent_witness :
  let self := iterator_over test_file [Some 2; None] [None; None] in
  ∃ a self' sel,
    __next__ self = (Ok a, self') ∧ returned self self' sel a ∧
    ∃ have_dim, ds_shape (next_item sel) !! 1%nat = Some have_dim ∧
                nd_shape a !! 1%nat = Some have_dim.
Proof.
  intros self. destruct (__next__ self) as [[a|e] self'] eqn:Hnext.
  - exists a, self'.
    destruct (wildcard_dim_is_item_extent self a self' Hnext)
      as (sel & Hret & _ & _ & Hdims).
    exists sel. split; [reflexivity|]. split; [exact Hret|].
    apply Hdims; [reflexivity|]. right. left. reflexivity.
  - vm_compute in Hnext. discriminate Hnext.
Defined.

(** ** C5 *)


(** ** C6 *)



(** ** C7 *)

(** C7 does not hold as stated. The shape (0, 5) is 0 on dimension 0 and
    fits every item on dimension 1; with the position (None, 18) the array
    returned has extent 2 on dimension 1, not 5. *)
Lemma zero_extent_other_dim_cut_short :
  let self := iterator_over test_file [Some 0; Some 5] [None; Some 18] in
  ∃ a self', __next__ self = (Ok a, self') ∧ nd_shape a = [0; 2]%N ∧
             nd_shape a !! 1%nat ≠ Some 5%N.
Proof.
  intros self. eexists _, _. split; [reflexivity|]. split; [reflexivity|].
  discriminate.
Qed.

Lemma zero_extent_returned_witness :
  let self := iterator_over test_file [Some 0; None] [None; None] in
  ∃ sel a self',
    __next__ self = (Ok a, self') ∧ returned self self' sel a ∧
    nd_shape a !! 0%nat = Some 0%N.
Proof.
  intros self. destruct (zero_extent_returned self 0%nat) as (sel & a & self' & Hres).
  - reflexivity.
  - apply test_items_nonempty.
  - intros path Hin.
    destruct (test_dims_fit [Some 0; None] [None; None]) with (path := path)
      as (item & Hfile & _ & Hfit); [|exact Hin|].
    { repeat constructor; simpl; lia. }
    exists item. split; [exact Hfile|]. intros k dim Hk.
    destruct (Hfit k dim Hk) as (h & p & Hh & Hp & Hdim). exists h, p. auto.
  - exists sel, a, self'. destruct Hres as (Hnext & Hret & Hzero & _).
    auto.
Defined.

(** ** C8 *)

Lemma same_seed_same_samples_witness :
  ∃ self1 self2 : Hdf5Iterator (A := Z) (G := Z),
    __init__ test_fs "._test.h5" [Some 2; None] None default_seed = Ok self1 ∧
    __init__ copy_fs "copy.h5" [Some 2; None] None default_seed = Ok self2 ∧
    hdf5_path self1 ≠ hdf5_path self2 ∧
    (calls 3 self1).1 = (calls 3 self2).1.
Proof.
  eexists _, _. split; [reflexivity|]. split; [reflexivity|].
  split; [discriminate|].
  apply (same_seed_same_samples test_fs copy_fs "._test.h5" "copy.h5" test_file
           [Some 2; None] None default_seed _ _ 3); reflexivity.
Defined.

(** ** C10 *)

Lemma trailing_dims_kept_witness :
  let self := iterator_over test_file [Some 2] [None] in
  ∃ a self' sel,
    __next__ self = (Ok a, self') ∧ returned self self' sel a ∧
    nd_shape a !! 1%nat = ds_shape (next_item sel) !! 1%nat.
Proof.
  intros self. destruct (__next__ self) as [[a|e] self'] eqn:Hnext.
  - exists a, self'.
    destruct (proj2 (proj2 (trailing_dims_kept self)) a self' Hnext)
      as (sel & Hret & _ & Hkept).
    exists sel. split; [reflexivity|]. split; [exact Hret|].
    apply Hkept. simpl. lia.
  - vm_compute in Hnext. discriminate Hnext.
Defined.

Example one_dim_shape_on_test_file : test_next [Some 2] None = Ok [2; 20]%N.
Proof. vm_compute. reflexivity. Qed.

(** * Runs for the further properties *)

Lemma init_items_are_datasets_witness :
  ∃ item, file_dataset test_file "c/7" = Some item.
Proof.
  apply (init_items_are_datasets (G := Z) test_fs "._test.h5" [Some 2; None] None
           default_seed (iterator_over test_file [Some 2; None] [None; None])).
  - reflexivity.
  - apply list_elem_of_In. vm_compute. tauto.
Defined.



Lemma built_iterator_never_key_error_witness :
  let self0 := iterator_over test_file [Some 100; Some 100] [None; None] in
  ∃ e, (__next__ (calls 2 self0).2).1 = Raise e ∧ ∀ p, e ≠ KeyError p.
Proof.
  intros self0. destruct (__next__ (calls 2 self0).2) as [[a|e] self'] eqn:Hnext.
  - vm_compute in Hnext. discriminate Hnext.
  - exists e. split; [reflexivity|].
    apply (built_iterator_never_key_error test_fs "._test.h5"
             [Some 100; Some 100] None default_seed self0 2 e self');
      [reflexivity | exact Hnext].
Defined.

Lemma sample_within_item_witness :
  let self := iterator_over test_file [Some 2; Some 5] [Some 14; None] in
  ∃ a self' sel,
    __next__ self = (Ok a, self') ∧ returned self self' sel a ∧
    length (nd_shape a) = length (ds_shape (next_item sel)).
Proof.
  intros self. destruct (__next__ self) as [[a|e] self'] eqn:Hnext.
  - exists a, self'.
    destruct (sample_within_item self a self' Hnext) as (sel & Hret & Hlen & _).
    exists sel. auto.
  - vm_compute in Hnext. discriminate Hnext.
Defined.

Lemma wildcard_pos_exact_extent_witness :
  let self := iterator_over test_file [Some 2; Some 5] [None; None] in
  ∃ a self', __next__ self = (Ok a, self') ∧ nd_shape a !! 1%nat = Some 5%N.
Proof.
  intros self. destruct (__next__ self) as [[a|e] self'] eqn:Hnext.
  - exists a, self'. split; [reflexivity|].
    destruct (wildcard_pos_exact_extent self a self' ltac:(repeat constructor) Hnext)
      as (sel & Hret & Hdims).
    destruct Hret as (self0 & Hcfg & Hsel & _).
    destruct (select_inv _ _ _ Hsel) as (self1 & Hchoice & Hfile & _).
    destruct Hcfg as (_ & Hh5 & _ & Hitems & _).
    rewrite Hh5 in Hfile. rewrite Hitems in Hchoice.
    change (h5 self) with test_file in Hfile.
    change (h5_items self) with (file_datasets test_file).*1 in Hchoice.
    rewrite (test_items_resolve _ (choice_inv _ _ _ _ Hchoice)) in Hfile.
    injection Hfile as Hitem.
    apply (Hdims 1%nat 5 20%N); [reflexivity | lia | simpl; lia |].
    rewrite <- Hitem. reflexivity.
  - vm_compute in Hnext. discriminate Hnext.
Defined.

Lemma test_file_too_big :
  some_dim_too_big (iterator_over test_file [Some 100; Some 100] [None; None]).
Proof.
  split; [apply test_items_nonempty|]. exists 0%nat, 100. split; [reflexivity|].
  intros path Hin. exists test_dataset, 15%N.
  split; [exact (test_items_resolve path Hin)|]. split; [reflexivity|].
  split; [lia|]. intros [|[|k]] Hk; discriminate Hk.
Qed.


Lemma exhausted_call_drew_500_witness :
  let self := iterator_over test_file [Some 100; Some 100] [None; None] in
  passes (seq 0 num_tries) self = 500%nat ∧
  rng (__next__ self).2 = Nat.iter 500 (item_draw 50) (rng self).
Proof.
  intros self.
  destruct (exhausted_call_drew_500 self (__next__ self).2) as (Hcount & Hrng & _).
  - pose proof (too_big_call_exhausts self test_file_too_big) as Hres.
    destruct (__next__ self) as [r self']. simpl in *. subst r. reflexivity.
  - split; [exact Hcount | exact Hrng].
Defined.

Lemma too_big_every_call_fails_witness :
  let self := iterator_over test_file [Some 100; Some 100] [None; None] in
  (calls 3 self).1 = replicate 3 (Raise (ValueError no_slice_msg)) ∧
  (for_each 4 self).1 = ([], Some (ValueError no_slice_msg)).
Proof.
  intros self. apply (too_big_every_call_fails self 3 3). exact test_file_too_big.
Defined.


Lemma main_checks_pass_witness :
  main_checks (A := Z) (G := Z) (fun _ _ _ => 0) = Passed.
Proof. exact (proj1 (main_checks_pass (fun _ _ _ => 0))). Defined.
